(** * bot_guessing-game: a model of [utils.py] and [buttons.py]

    The development embeds the game logic ([GameUtils]) and the data
    access layer ([DatabaseUtils]) of the vocabulary quiz bot and proves
    properties of word selection, exposure counting, rating rendering and
    the personal word store.

    Conventions.
    - Python [str] is [string] (the UTF-8 bytes of the source literals).
    - Python [int] is [Z]; lengths and the [quantity] argument, which the
      source only ever uses at positive values, are [nat].
    - A Python [dict] is an association list in insertion order without
      repeated keys: the game reads its word dictionaries positionally.
    - The three PostgreSQL tables are lists of rows in storage order, with
      a SERIAL counter each.
    - Effects (database, CSV file, random numbers, log, chat) are threaded
      through a state monad whose state survives a raised exception, as
      Python's does. *)

From Stdlib Require Import List String Ascii ZArith Arith Bool Lia RelationClasses.
From Stdlib Require Import DecimalString Permutation Sorted.
Import ListNotations.
Local Open Scope string_scope.
Local Open Scope list_scope.

Set Implicit Arguments.

(** ** Python strings *)

Module PyStr.

(** [str(n)] for an [int]. *)
Definition str_int (n : Z) : string := NilZero.string_of_int (Z.to_int n).

Definition dquote : string := String "034"%char EmptyString.
Definition nl : string := String "010"%char EmptyString.
Definition tab : string := String "009"%char EmptyString.

(** [sep.join(l)] *)
Fixpoint join (sep : string) (l : list string) : string :=
  match l with
  | [] => EmptyString
  | [s] => s
  | s :: rest => s ++ sep ++ join sep rest
  end.

(** [s.split(',')]: always at least one field. *)
Fixpoint split_comma (s : string) : list string :=
  match s with
  | EmptyString => [EmptyString]
  | String c rest =>
      if Ascii.eqb c ","%char then EmptyString :: split_comma rest
      else match split_comma rest with
           | [] => [String c EmptyString]
           | f :: fs => String c f :: fs
           end
  end.

(** White space as [str.isspace] sees it, on the UTF-8 bytes of a
    character: U+0009..U+000D, U+001C..U+0020; U+0085 and U+00A0 (two
    bytes); U+1680, U+2000..U+200A, U+2028, U+2029, U+202F, U+205F and
    U+3000 (three bytes). *)
Definition space1 (a : nat) : bool :=
  (Nat.eqb a 32 || (Nat.leb 9 a && Nat.leb a 13)
   || (Nat.leb 28 a && Nat.leb a 31))%bool.

Definition space2 (a b : nat) : bool :=
  (Nat.eqb a 194 && (Nat.eqb b 133 || Nat.eqb b 160))%bool.

Definition space3 (a b c : nat) : bool :=
  ((Nat.eqb a 225 && Nat.eqb b 154 && Nat.eqb c 128)
   || (Nat.eqb a 226 && Nat.eqb b 128
       && ((Nat.leb 128 c && Nat.leb c 138)
           || Nat.eqb c 168 || Nat.eqb c 169 || Nat.eqb c 175))
   || (Nat.eqb a 226 && Nat.eqb b 129 && Nat.eqb c 159)
   || (Nat.eqb a 227 && Nat.eqb b 128 && Nat.eqb c 128))%bool.

(** Drop the white space at the head of a list of bytes; with
    [backwards] the bytes of each character come last byte first. *)
Fixpoint drop_spaces (backwards : bool) (l : list nat) : list nat :=
  match l with
  | a :: rest1 =>
      if space1 a then drop_spaces backwards rest1
      else
        match rest1 with
        | b :: rest2 =>
            if (if backwards then space2 b a else space2 a b)
            then drop_spaces backwards rest2
            else
              match rest2 with
              | c :: rest3 =>
                  if (if backwards then space3 c b a else space3 a b c)
                  then drop_spaces backwards rest3
                  else l
              | [] => l
              end
        | [] => l
        end
  | [] => []
  end.

Definition bytes_of (s : string) : list nat :=
  map nat_of_ascii (list_ascii_of_string s).

Definition of_bytes (l : list nat) : string :=
  string_of_list_ascii (map ascii_of_nat l).

(** [s.strip()] on the UTF-8 bytes of [s]. *)
Definition strip (s : string) : string :=
  of_bytes (rev (drop_spaces true (rev (drop_spaces false (bytes_of s))))).

End PyStr.

(** ** Python dictionaries, in insertion order *)

Module PyDict.
Section Dict.
Variable V : Type.

Definition dict := list (string * V).

Definition keys (d : dict) : list string := map fst d.
Definition values (d : dict) : list V := map snd d.
Definition len (d : dict) : nat := List.length d.

(** [d[k]], [None] standing for [KeyError]. *)
Fixpoint get (d : dict) (k : string) : option V :=
  match d with
  | [] => None
  | (k', v) :: rest => if String.eqb k' k then Some v else get rest k
  end.

(** [d[k] = v]: an existing key keeps its position and takes the new
    value, a new key goes last. *)
Fixpoint set (d : dict) (k : string) (v : V) : dict :=
  match d with
  | [] => [(k, v)]
  | (k', v') :: rest =>
      if String.eqb k' k then (k', v) :: rest else (k', v') :: set rest k v
  end.

(** [d.update(other)] *)
Definition update (d other : dict) : dict :=
  fold_left (fun acc kv => set acc (fst kv) (snd kv)) other d.

(** Build a dictionary by assigning the pairs in order, as the
    [for ...: words_dict[k] = v] loops of the source do. *)
Definition of_pairs (l : list (string * V)) : dict := update [] l.

Definition wf (d : dict) : Prop := NoDup (keys d).

End Dict.
End PyDict.

Arguments PyDict.get {V} d k.
Arguments PyDict.set {V} d k v.
Arguments PyDict.update {V} d other.
Arguments PyDict.of_pairs {V} l.
Arguments PyDict.keys {V} d.
Arguments PyDict.values {V} d.
Arguments PyDict.len {V} d.
Arguments PyDict.wf {V} d.

(** ** Outcomes of a call *)

(** The exceptions the modelled code can raise. *)
Inductive exn : Type :=
| RecursionError      (* the interpreter's recursion limit is reached *)
| IndexError          (* [l[i]] out of range *)
| KeyError            (* [d[k]] for a missing key *)
| FileNotFoundError   (* [open] on a missing file *)
| ValueError.         (* [random.sample] with a sample larger than the population *)

Inductive result (A : Type) : Type :=
| Returned (a : A)
| Raised (e : exn).

Arguments Returned {A} a.
Arguments Raised {A} e.

(** ** The relational store: tables [users], [word] and [users_word] *)

Module Database.

(** Rows, with the columns of [DatabaseUtils.add_tabl]. *)
Record users_row : Type := mk_users_row
  { u_id : Z; u_telegram_user_id : Z; u_name : string; u_points : Z }.

Record word_row : Type := mk_word_row
  { w_id : Z; w_user_id : option Z;
    w_russian_words : string; w_translation : string }.

Record users_word_row : Type := mk_users_word_row
  { uw_id : Z; uw_user_id : Z; uw_word_id : option Z; uw_times_shown : Z }.

(** The three tables in storage order and the next value of each
    SERIAL primary key. *)
Record database : Type := mk_database
  { users : list users_row;
    word : list word_row;
    users_word : list users_word_row;
    users_seq : Z;
    word_seq : Z;
    users_word_seq : Z }.

Definition with_users (d : database) (l : list users_row) : database :=
  mk_database l (word d) (users_word d)
              (users_seq d) (word_seq d) (users_word_seq d).

(** SQL [a = b]: true only when both sides are non-NULL and equal. *)
Definition sql_eq (a b : option Z) : bool :=
  match a, b with
  | Some x, Some y => Z.eqb x y
  | _, _ => false
  end.

Definition is_null (a : option Z) : bool :=
  match a with None => true | Some _ => false end.

(** SQL [x NOT IN (l)]: true only when no element equals [x] and none
    is NULL. *)
Definition sql_not_in (x : Z) (l : list (option Z)) : bool :=
  negb (existsb (sql_eq (Some x)) l) && negb (existsb is_null l).

(** Modelled from the spec: [Database.insert_data] (database.py is not
    among the sources) on table [word]; it stores the row under the next
    SERIAL id and returns that id ([createWord(...) -> internalId]). *)
Definition insert_word (d : database) (user_id : option Z)
           (russian translation : string) : Z * database :=
  let i := word_seq d in
  (i, mk_database (users d)
                  (word d ++ [mk_word_row i user_id russian translation])
                  (users_word d)
                  (users_seq d) (i + 1) (users_word_seq d)).

(** Modelled from the spec: [Database.insert_data] on table
    [users_word]. *)
Definition insert_users_word (d : database) (user_id : Z)
           (word_id : option Z) (times_shown : Z) : database :=
  let i := users_word_seq d in
  mk_database (users d) (word d)
              (users_word d ++ [mk_users_word_row i user_id word_id times_shown])
              (users_seq d) (word_seq d) (i + 1).

(** Modelled from the spec: [Database.delete_data] on table [word]
    ([deleteUserWord(term, userId) -> success boolean]): the rows that
    satisfy the condition are removed, with the [users_word] rows that
    reference them (ON DELETE CASCADE); the answer is whether a row was
    removed. *)
Definition delete_from_word (d : database) (cond : word_row -> bool)
  : bool * database :=
  let gone := filter cond (word d) in
  let refers (uw : users_word_row) :=
    existsb (fun w => sql_eq (uw_word_id uw) (Some (w_id w))) gone in
  (negb (Nat.eqb (List.length gone) 0),
   mk_database (users d)
               (filter (fun w => negb (cond w)) (word d))
               (filter (fun uw => negb (refers uw)) (users_word d))
               (users_seq d) (word_seq d) (users_word_seq d)).

End Database.

(** ** [class DatabaseUtils(Database)] *)

Module DatabaseUtils.
Import Database.

(** [SELECT u.id FROM users u WHERE u.telegram_user_id = tg], as a list
    of ids. *)
Definition select_user_id (d : database) (tg : Z) : list Z :=
  map u_id (filter (fun u => Z.eqb (u_telegram_user_id u) tg) (users d)).

(** The same query used as a scalar subquery: NULL when no row matches
    ([telegram_user_id] is UNIQUE). *)
Definition user_id_of (d : database) (tg : Z) : option Z :=
  hd_error (select_user_id d tg).

Definition search_user (d : database) (tg_user_id : Z)
  : option (Z * string * Z) :=
  match filter (fun u => Z.eqb (u_telegram_user_id u) tg_user_id) (users d) with
  | [] => None
  | u :: _ => Some (u_id u, u_name u, u_points u)
  end.

(** The condition of [search_word]. *)
Definition word_matches (w : string) (user_id : option Z) (r : word_row) : bool :=
  String.eqb (w_russian_words r) w &&
  match user_id with
  | Some u => sql_eq (w_user_id r) (Some u)
  | None => is_null (w_user_id r)
  end.

Definition search_word (d : database) (w : string) (user_id : option Z)
  : option Z :=
  match filter (word_matches w user_id) (word d) with
  | [] => None
  | r :: _ => Some (w_id r)
  end.

Definition save_word (d : database) (w translation : string)
           (user_id : option Z) : Z * database :=
  insert_word d user_id w translation.

(** [SUM(uw.times_shown)] over the rows of one [GROUP BY uw.word_id]
    group of the user's rows (NULL keys form one group). *)
Definition same_group (a b : option Z) : bool :=
  match a, b with
  | None, None => true
  | _, _ => sql_eq a b
  end.

Definition rows_of_user (d : database) (tg : Z) : list users_word_row :=
  filter (fun uw => sql_eq (Some (uw_user_id uw)) (user_id_of d tg))
         (users_word d).

Definition group_sum (rows : list users_word_row) (key : option Z) : Z :=
  fold_right Z.add 0%Z
    (map uw_times_shown
         (filter (fun uw => same_group (uw_word_id uw) key) rows)).

(** The subquery of [get_random_words_for_user]: the [word_id] of every
    group with [HAVING SUM(uw.times_shown) >= 4]. *)
Definition mastered_ids (d : database) (tg : Z) : list (option Z) :=
  let rows := rows_of_user d tg in
  map uw_word_id
      (filter (fun uw => Z.leb 4 (group_sum rows (uw_word_id uw))) rows).

(** The WHERE clause of [get_random_words_for_user], before
    [ORDER BY RANDOM() LIMIT quantity]. *)
Definition eligible_words (d : database) (user_id : Z) (flag : bool)
  : list word_row :=
  filter (fun w =>
            sql_not_in (w_id w) (mastered_ids d user_id) &&
            (if flag then sql_eq (w_user_id w) (Some user_id)
             else is_null (w_user_id w)))
         (word d).

(** The loop that turns the selected rows into the returned dictionary. *)
Definition words_dict_of (rows : list word_row) : PyDict.dict (string * Z) :=
  PyDict.of_pairs
    (map (fun w => (w_russian_words w, (w_translation w, w_id w))) rows).

Definition update_points (d : database) (user_id : Z) (points : Z) (add : bool)
  : database :=
  with_users d
    (map (fun u =>
            if Z.eqb (u_telegram_user_id u) user_id
            then mk_users_row (u_id u) (u_telegram_user_id u) (u_name u)
                              (if add then u_points u + points
                               else u_points u - points)%Z
            else u)
         (users d)).

(** [UPDATE users_word SET times_shown = times_shown + 1 WHERE id = i] *)
Definition bump_times_shown (d : database) (i : Z) : database :=
  mk_database (users d) (word d)
    (map (fun uw =>
            if Z.eqb (uw_id uw) i
            then mk_users_word_row (uw_id uw) (uw_user_id uw) (uw_word_id uw)
                                   (uw_times_shown uw + 1)
            else uw)
         (users_word d))
    (users_seq d) (word_seq d) (users_word_seq d).

(** The first SELECT of [update_times_shown]. *)
Definition select_users_word (d : database) (telegram_user_id : Z)
           (word_id : option Z) : list users_word_row :=
  filter (fun uw =>
            sql_eq (uw_word_id uw) word_id &&
            sql_eq (Some (uw_user_id uw)) (user_id_of d telegram_user_id))
         (users_word d).

Definition update_times_shown (d : database) (telegram_user_id : Z)
           (word_id : option Z) : result unit * database :=
  match select_users_word d telegram_user_id word_id with
  | uw :: _ => (Returned tt, bump_times_shown d (uw_id uw))
  | [] =>
      match select_user_id d telegram_user_id with
      | [] => (Raised IndexError, d)
      | user_id :: _ =>
          (Returned tt, insert_users_word d user_id word_id 1)
      end
  end.

(** One entry of the rating list. *)
Record rating : Type := mk_rating
  { telegram_user_id : Z; name : string; points : Z }.

(** [ORDER BY points DESC]; rows with equal points stay in storage
    order. *)
Fixpoint insert_desc (u : users_row) (l : list users_row) : list users_row :=
  match l with
  | [] => [u]
  | x :: rest =>
      if Z.leb (u_points x) (u_points u) then u :: l
      else x :: insert_desc u rest
  end.

Definition order_by_points_desc (l : list users_row) : list users_row :=
  fold_right insert_desc [] l.

Definition get_player_ratings (d : database) : list rating :=
  map (fun u => mk_rating (u_telegram_user_id u) (u_name u) (u_points u))
      (order_by_points_desc (users d)).

(** [word w LEFT JOIN users_word uw ON w.id = uw.word_id] restricted to
    [w.user_id = user_id]. *)
Definition left_join_rows (d : database) (user_id : Z)
  : list (string * option Z) :=
  flat_map
    (fun w =>
       match filter (fun uw => sql_eq (Some (w_id w)) (uw_word_id uw))
                    (users_word d) with
       | [] => [(w_russian_words w, None)]
       | ms => map (fun uw => (w_russian_words w, Some (uw_times_shown uw))) ms
       end)
    (filter (fun w => sql_eq (w_user_id w) (Some user_id)) (word d)).

Definition get_user_word (d : database) (user_id : Z)
  : PyDict.dict (option Z) :=
  PyDict.of_pairs (left_join_rows d user_id).

Definition delete_word (d : database) (w : string) (user_id : Z)
  : bool * database :=
  delete_from_word d (word_matches w (Some user_id)).

End DatabaseUtils.

(** ** The world the bot runs in, and the monad of its methods *)

Import Database.

(** A word dictionary of the word sources: term to [[translation, id]]. *)
Definition word_dict : Type := PyDict.dict (string * Z).

Inductive log_entry : Type :=
| Debug (msg : string)
| DebugDict (msg : string) (d : word_dict)
| Error (msg : string) (e : exn).

(** An incoming chat message: [message.chat.id], [message.from_user.id]
    and [message.text]. *)
Record message : Type := mk_message
  { chat_id : Z; from_user_id : Z; text : string }.

(** What [bot.send_message] was called with. *)
Record sent : Type := mk_sent
  { to_chat : Z;
    body : string;
    reply_markup : option (list string);
    parse_mode : option string }.

(** The callbacks given to [register_next_step_handler], with their extra
    arguments. *)
Inductive handler : Type :=
| h_check_answer (id_word : option Z) (correct_translation : string)
| h_save_new_word (user_id : Z)
| h_delete_user_word (user_id : Z).

Record world : Type := mk_world
  { db : database;
    (** rows of [russian_english_words.csv]; [None] when it cannot be opened *)
    csv : option (list (list string));
    (** the values the random generator is going to produce *)
    tape : list nat;
    log : list log_entry;
    outbox : list sent;
    next_step : list (Z * handler) }.

Definition M (A : Type) : Type := world -> result A * world.

Definition ret {A} (a : A) : M A := fun w => (Returned a, w).

Definition raise {A} (e : exn) : M A := fun w => (Raised e, w).

Definition bind {A B} (c : M A) (k : A -> M B) : M B :=
  fun w =>
    match c w with
    | (Returned a, w') => k a w'
    | (Raised e, w') => (Raised e, w')
    end.

(** [try: c except Exception as e: h e] *)
Definition try_except {A} (c : M A) (h : exn -> M A) : M A :=
  fun w =>
    match c w with
    | (Returned a, w') => (Returned a, w')
    | (Raised e, w') => h e w'
    end.

Declare Scope py_scope.
Delimit Scope py_scope with py.
Notation "x <- c ;; k" := (bind c (fun x => k))
  (at level 61, c at next level, right associativity) : py_scope.
Notation "' p <- c ;; k" := (bind c (fun x => match x with p => k end))
  (at level 61, p pattern, c at next level, right associativity) : py_scope.
Notation "c ;; k" := (bind c (fun _ => k))
  (at level 61, right associativity) : py_scope.
Local Open Scope py_scope.

Definition get_db : M database := fun w => (Returned (db w), w).

Definition put_db (d : database) : M unit :=
  fun w => (Returned tt,
            mk_world d (csv w) (tape w) (log w) (outbox w) (next_step w)).

Definition put_csv (rows : list (list string)) : M unit :=
  fun w => (Returned tt,
            mk_world (db w) (Some rows) (tape w) (log w) (outbox w) (next_step w)).

Definition logger (e : log_entry) : M unit :=
  fun w => (Returned tt,
            mk_world (db w) (csv w) (tape w) (log w ++ [e]) (outbox w) (next_step w)).

Definition send_message (chat : Z) (msg : string)
           (markup : option (list string)) (mode : option string) : M unit :=
  fun w => (Returned tt,
            mk_world (db w) (csv w) (tape w) (log w)
                     (outbox w ++ [mk_sent chat msg markup mode]) (next_step w)).

Definition register_next_step_handler (chat : Z) (h : handler) : M unit :=
  fun w => (Returned tt,
            mk_world (db w) (csv w) (tape w) (log w) (outbox w)
                     (next_step w ++ [(chat, h)])).

(** Run a database method that returns a value and a new store. *)
Definition db_call {A} (f : database -> A * database) : M A :=
  fun w => let '(a, d) := f (db w) in
           (Returned a,
            mk_world d (csv w) (tape w) (log w) (outbox w) (next_step w)).

(** Run a database query. *)
Definition db_query {A} (f : database -> A) : M A :=
  fun w => (Returned (f (db w)), w).

(** [l[i]] *)
Definition index {A} (l : list A) (i : nat) : M A :=
  match nth_error l i with
  | Some a => ret a
  | None => raise IndexError
  end.

(** *** Module [random] *)

(** The next number of the generator; an exhausted tape gives 0. *)
Definition next_random : M nat :=
  fun w =>
    match tape w with
    | [] => (Returned 0, w)
    | r :: rest =>
        (Returned r,
         mk_world (db w) (csv w) rest (log w) (outbox w) (next_step w))
    end.

(** [random.randint(0, hi)] *)
Definition randint0 (hi : nat) : M nat :=
  r <- next_random ;; ret (r mod (S hi)).

Fixpoint remove_nth {A} (i : nat) (l : list A) : list A :=
  match l, i with
  | [], _ => []
  | _ :: rest, 0 => rest
  | x :: rest, S j => x :: remove_nth j rest
  end.

Fixpoint sample_loop {A} (k : nat) (population : list A) : M (list A) :=
  match k with
  | 0 => ret []
  | S k' =>
      match population with
      | [] => ret []
      | x0 :: _ =>
          r <- next_random ;;
          let i := r mod List.length population in
          rest <- sample_loop k' (remove_nth i population) ;;
          ret (nth i population x0 :: rest)
      end
  end.

(** [random.sample(population, k)]: [k] elements at distinct positions. *)
Definition sample {A} (population : list A) (k : nat) : M (list A) :=
  if Nat.ltb (List.length population) k then raise ValueError
  else sample_loop k population.

(** [random.shuffle(l)] *)
Definition shuffle {A} (l : list A) : M (list A) :=
  sample_loop (List.length l) l.

(** [DatabaseUtils.get_random_words_for_user]: the eligible rows,
    [ORDER BY RANDOM() LIMIT quantity], as a dictionary. *)
Definition get_random_words_for_user (user_id : Z) (quantity : nat)
           (flag : bool) : M word_dict :=
  rows <- db_query (fun d => DatabaseUtils.eligible_words d user_id flag) ;;
  selected <- sample_loop quantity rows ;;
  ret (DatabaseUtils.words_dict_of selected).

(** ** Module [btn_text] and the Unicode string methods

    [btn_text.py] is not among the sources: the button labels are
    parameters. So are the methods [str.lower], [str.capitalize] and
    [str.strip] of Python's strings, which follow the Unicode tables (case
    mappings, and the white space of [str.isspace]); what is proved of the
    handlers holds for every such function. *)

Class BtnText : Type :=
  { BTN_STAR_GEME : string;
    BTN_VIEW_RATING : string;
    BTN_ADD_WORD : string;
    BTN_DEL_WORD : string;
    BTN_Back : string }.

Class StrMethods : Type :=
  { lower : string -> string;
    capitalize : string -> string;
    strip : string -> string }.

(** ** Module [buttons] *)

Section Buttons.
Context {B : BtnText}.

Definition start_button : list string := [BTN_STAR_GEME].

Definition translation_buttons (text_buttons : list string)
  : M (list string) :=
  shuffled <- shuffle text_buttons ;;
  ret (shuffled ++ [BTN_ADD_WORD; BTN_DEL_WORD; BTN_VIEW_RATING]).

Definition universal_buttons (text_buttons : list string)
  : M (list string) :=
  shuffle text_buttons.

End Buttons.

(** ** [class GameUtils] *)

(** Where a [try] block of [read_words_csv] stopped: at its [return], or
    at an exception, with the local [words_dict] as built so far. *)
Inductive attempt : Type :=
| Done (words_dict : word_dict)
| Failed (e : exn) (words_dict : word_dict).

(** Run [c] inside the [try] block while the local dictionary is
    [words_dict]. *)
Definition guarded {A} (words_dict : word_dict) (c : M A)
           (k : A -> M attempt) : M attempt :=
  fun w =>
    match c w with
    | (Returned a, w') => k a w'
    | (Raised e, w') => (Returned (Failed e words_dict), w')
    end.

(** [open('russian_english_words.csv')] and [list(csv.reader(csvfile))] *)
Definition read_csv_file : M (list (list string)) :=
  fun w =>
    match csv w with
    | Some rows => (Returned rows, w)
    | None => (Raised FileNotFoundError, w)
    end.

Definition row_in (row : list string) (rows : list (list string)) : bool :=
  if in_dec (list_eq_dec string_dec) row rows then true else false.

(** [[word for word in words if word not in selected_words]] *)
Definition remaining_words (words selected_words : list (list string))
  : list (list string) :=
  filter (fun word => negb (row_in word selected_words)) words.

(** The [for word_list in selected_words] loop of [read_words_csv]. *)
Fixpoint csv_rows (selected_words : list (list string))
         (words_dict : word_dict) : M attempt :=
  match selected_words with
  | [] => ret (Done words_dict)
  | word_list :: rest =>
      guarded words_dict (index word_list 0) (fun w0 =>
      guarded words_dict
        (found <- db_query (fun d => DatabaseUtils.search_word d w0 None) ;;
         w1 <- index word_list 1 ;;
         id_word <- match found with
                    | Some i => ret i
                    | None => db_call (fun d => DatabaseUtils.save_word d w0 w1 None)
                    end ;;
         ret (w1, id_word))
        (fun entry => csv_rows rest (PyDict.set words_dict w0 entry)))
  end.

Definition debug_csv : string := "запускается read_words_csv".
Definition debug_bd : string := "запускается read_words_bd".
Definition error_csv : string := "ошибка при чтении CSV файла ".

(** [read_words_csv] and [read_words_bd] call each other; [depth] is the
    number of frames left before the interpreter raises
    [RecursionError]. *)
Fixpoint read_words_csv (depth : nat) (user_id : Z) (quantity : nat)
         {struct depth} : M word_dict :=
  match depth with
  | 0 => raise RecursionError
  | S depth' =>
      logger (Debug debug_csv) ;;
      a <- guarded [] read_csv_file (fun words =>
           let rows := tl words in
           guarded []
             (sample rows (if Nat.ltb (List.length rows) quantity
                           then List.length rows else quantity))
             (fun selected_words =>
           looped <- csv_rows selected_words [] ;;
           match looped with
           | Failed e words_dict => ret (Failed e words_dict)
           | Done words_dict =>
               guarded words_dict
                 (if Nat.ltb (PyDict.len words_dict) quantity
                  then result <- read_words_bd depth' user_id
                                   (quantity - PyDict.len words_dict) ;;
                       ret (PyDict.update words_dict result)
                  else ret words_dict)
                 (fun words_dict' =>
               put_csv (remaining_words words selected_words) ;;
               ret (Done words_dict'))
           end)) ;;
      match a with
      | Done words_dict => ret words_dict
      | Failed e words_dict =>
          logger (Error error_csv e) ;;
          result <- read_words_bd depth' user_id quantity ;;
          ret (PyDict.update words_dict result)
      end
  end

with read_words_bd (depth : nat) (user_id : Z) (quantity : nat)
       {struct depth} : M word_dict :=
  match depth with
  | 0 => raise RecursionError
  | S depth' =>
      logger (Debug debug_bd) ;;
      result <- get_random_words_for_user user_id quantity false ;;
      if Nat.ltb (PyDict.len result) quantity
      then csv_word <- read_words_csv depth' user_id
                         (quantity - PyDict.len result) ;;
           ret (PyDict.update result csv_word)
      else ret result
  end.

Definition read_words_bd_added_user (depth : nat) (user_id : Z) : M word_dict :=
  logger (Debug "запускается read_words_bd_added_user") ;;
  result <- get_random_words_for_user user_id 4 true ;;
  if Nat.ltb (PyDict.len result) 4
  then bd_word <- read_words_bd depth user_id (4 - PyDict.len result) ;;
       ret (PyDict.update result bd_word)
  else ret result.

(** The built-in list of [get_fallback_words]. *)
Definition fallback_words : list (string * string) :=
  [ ("кот", "cat"); ("собака", "dog"); ("молоко", "milk"); ("хлеб", "bread");
    ("яблоко", "apple"); ("машина", "car"); ("дом", "house");
    ("окно", "window"); ("дерево", "tree"); ("книга", "book");
    ("ручка", "pen"); ("стол", "table"); ("стул", "chair"); ("часы", "clock");
    ("зонт", "umbrella"); ("солнце", "sun"); ("луна", "moon");
    ("звезда", "star"); ("рыба", "fish"); ("птица", "bird") ].

Fixpoint fallback_rows (selected_words : list (string * string))
         (words_dict : PyDict.dict string) : M (PyDict.dict string) :=
  match selected_words with
  | [] => ret words_dict
  | (w0, translation) :: rest =>
      check_word_bd <- db_query (fun d => DatabaseUtils.search_word d w0 None) ;;
      match check_word_bd with
      | None => db_call (fun d => DatabaseUtils.save_word d w0 translation None) ;;
                ret tt
      | Some _ => ret tt
      end ;;
      fallback_rows rest (PyDict.set words_dict w0 translation)
  end.

Definition get_fallback_words (quantity : nat) : M (PyDict.dict string) :=
  logger (Debug "запуск резервного списка") ;;
  selected_words <- sample fallback_words quantity ;;
  fallback_rows selected_words [].

(** A round: the word, its translation, the other translations, the id of
    the word in the store. *)
Definition round : Type := (string * string * list string * option Z)%type.

Definition error_generator : string := "Ошибка при генерации слов: ".

(** The [try] block of [word_generator]. *)
Definition round_of (d : word_dict) : M round :=
  w0 <- index (PyDict.keys d) 0 ;;
  match PyDict.get d w0 with
  | None => raise KeyError
  | Some (translation, id_word) =>
      let text_buttons := map fst (tl (PyDict.values d)) in
      ret (w0, translation, text_buttons, Some id_word)
  end.

(** The [except] block of [word_generator]. *)
Definition fallback_round : M round :=
  d <- get_fallback_words 4 ;;
  w0 <- index (PyDict.keys d) 0 ;;
  match PyDict.get d w0 with
  | None => raise KeyError
  | Some translation =>
      id_word_db <- db_query (fun s => DatabaseUtils.search_word s w0 None) ;;
      ret (w0, translation, tl (PyDict.values d), id_word_db)
  end.

(** The word source that [flag] selects. *)
Definition word_source (depth : nat) (flag : nat) (id_user : Z) : M word_dict :=
  match flag with
  | 0 => read_words_csv depth id_user 4
  | 1 => read_words_bd_added_user depth id_user
  | _ => read_words_bd depth id_user 4
  end.

Definition word_generator (depth : nat) (msg : message) : M round :=
  let id_user := from_user_id msg in
  flag <- randint0 2 ;;
  logger (Debug ("def word_generator:flag " ++
                 PyStr.str_int (Z.of_nat flag))%string) ;;
  d <- word_source depth flag id_user ;;
  logger (DebugDict "def word_generator:word_dict " d) ;;
  try_except (round_of d)
             (fun e => logger (Error error_generator e) ;; fallback_round).

(** *** The rating *)

Definition _get_medal (idx : nat) : string :=
  match idx with
  | 1 => "🥇"
  | 2 => "🥈"
  | 3 => "🥉"
  | _ => (PyStr.str_int (Z.of_nat idx) ++ ".")%string
  end.

(** [f'{medal} {user["name"]} - "{user["points"]} очков"'] *)
Definition rating_line (medal : string) (user : DatabaseUtils.rating) : string :=
  (medal ++ " " ++ DatabaseUtils.name user ++ " - " ++ PyStr.dquote ++
   PyStr.str_int (DatabaseUtils.points user) ++ " очков" ++ PyStr.dquote)%string.

Definition _format_rating_entry (user_position idx : nat)
           (user : DatabaseUtils.rating) : string :=
  if Nat.eqb user_position idx
  then ("<b>" ++ rating_line (_get_medal idx) user ++ "</b>" ++ PyStr.nl)%string
  else (rating_line (_get_medal idx) user ++ PyStr.nl)%string.

(** [enumerate(l)], counting from [i]. *)
Fixpoint enumerate_from {A} (i : nat) (l : list A) : list (nat * A) :=
  match l with
  | [] => []
  | x :: rest => (i, x) :: enumerate_from (S i) rest
  end.

(** The first loop of [display_player_rating]: the 1-based position of
    the first entry of the user. *)
Fixpoint find_position (rows : list (nat * DatabaseUtils.rating))
         (telegram_user_id : Z) : option nat :=
  match rows with
  | [] => None
  | (idx, user) :: rest =>
      if Z.eqb (DatabaseUtils.telegram_user_id user) telegram_user_id
      then Some (idx + 1)
      else find_position rest telegram_user_id
  end.

(** The entries that a branch of [display_player_rating] appends to
    [msg], in order. *)
Definition rating_entries (rating_data : list DatabaseUtils.rating)
           (user_position : nat) : M (list string) :=
  if Nat.leb user_position 3 then
    ret (map (fun '(idx, user) => _format_rating_entry user_position (idx + 1) user)
             (enumerate_from 0 (firstn 3 rating_data)))
  else if (Nat.eqb user_position 4 || Nat.eqb user_position 5)%bool then
    ret (map (fun '(idx, user) => _format_rating_entry user_position (idx + 1) user)
             (enumerate_from 0 (firstn user_position rating_data)))
  else
    own <- index rating_data (user_position - 1) ;;
    ret (map (fun '(idx, user) =>
                (rating_line (_get_medal (idx + 1)) user ++ PyStr.nl)%string)
             (enumerate_from 0 (firstn 3 rating_data))
         ++ [("..." ++ PyStr.nl)%string;
             ("<b>" ++ PyStr.tab ++ PyStr.str_int (Z.of_nat user_position) ++ "." ++
              DatabaseUtils.name own ++ " - " ++ PyStr.dquote ++
              PyStr.str_int (DatabaseUtils.points own) ++ " очков" ++
              PyStr.dquote ++ "</b>")%string]).

Definition not_found_message : string := "Пользователь не найден в рейтинге.".

Definition display_player_rating (telegram_user_id : Z) : M string :=
  rating_data <- db_query DatabaseUtils.get_player_ratings ;;
  match find_position (enumerate_from 0 rating_data) telegram_user_id with
  | Some (S _ as user_position) =>
      entries <- rating_entries rating_data user_position ;;
      ret (String.concat EmptyString entries)
  | _ => ret not_found_message
  end.

(** *** The personal word list *)

Definition in_progress : string := "<b>изучается</b>".
Definition mastered : string := "изучено".

(** The status of a word in [_format_user_words]. *)
Definition status (times_shown : option Z) : string :=
  match times_shown with
  | None => in_progress
  | Some n => if Z.ltb n 4 then in_progress else mastered
  end.

Definition _format_user_words (user_id : Z) : M string :=
  d <- db_query (fun s => DatabaseUtils.get_user_word s user_id) ;;
  let word_list :=
    map (fun '(w0, times_shown) => (w0 ++ " - " ++ status times_shown)%string) d in
  ret ("Слова, которые вы добавили:" ++ PyStr.nl ++
       PyStr.join PyStr.nl word_list)%string.

(** *** The round and the handlers of the replies *)

Section Handlers.
Context {B : BtnText} {U : StrMethods}.

Definition html : option string := Some "HTML".

Definition continue_prompt : string := "Дя продолжения нажмите кнопку".

Definition start_game (depth : nat) (msg : message) : M unit :=
  '(w0, correct_translation, text_buttons, id_word_db) <- word_generator depth msg ;;
  markup <- translation_buttons (text_buttons ++ [correct_translation]) ;;
  send_message (chat_id msg)
               ("Как перевести слово '<b>" ++ w0 ++ "</b>'?")%string
               (Some markup) html ;;
  register_next_step_handler (chat_id msg)
                             (h_check_answer id_word_db correct_translation).

Definition add_new_word (msg : message) : M unit :=
  markup <- universal_buttons [BTN_Back] ;;
  send_message (chat_id msg)
    ("Введите слово и его перевод через запятую (например, " ++ PyStr.dquote ++
     "кот, cat" ++ PyStr.dquote ++ "):")%string
    (Some markup) None ;;
  register_next_step_handler (chat_id msg) (h_save_new_word (from_user_id msg)).

Definition dell_word_user (msg : message) : M unit :=
  word_message <- _format_user_words (from_user_id msg) ;;
  markup <- universal_buttons [BTN_Back] ;;
  send_message (chat_id msg)
    (word_message ++ PyStr.nl ++ "Укажите слово которое нужно удалить")%string
    (Some markup) html ;;
  register_next_step_handler (chat_id msg) (h_delete_user_word (from_user_id msg)).

Definition correct_message : string := "Превосходно! Вы справились! 🌟 +1 балл!".
Definition wrong_message : string := "Не совсем так. Но не отчаивайтесь! 💔 -3 балла!".

Definition check_answer (depth : nat) (msg : message) (id_word : option Z)
           (correct_translation : string) : M unit :=
  let user_answer := text msg in
  let user_id := from_user_id msg in
  if String.eqb user_answer correct_translation then
    send_message (chat_id msg) correct_message None None ;;
    db_call (fun d => (tt, DatabaseUtils.update_points d user_id 1 true)) ;;
    (fun w =>
       let '(r, d) := DatabaseUtils.update_times_shown (db w) user_id id_word in
       (r, mk_world d (csv w) (tape w) (log w) (outbox w) (next_step w))) ;;
    start_game depth msg
  else if String.eqb user_answer BTN_VIEW_RATING then
    rating <- display_player_rating user_id ;;
    send_message (chat_id msg) rating None html ;;
    send_message (chat_id msg) continue_prompt (Some start_button) None
  else if String.eqb user_answer BTN_ADD_WORD then
    add_new_word msg
  else if String.eqb user_answer BTN_DEL_WORD then
    dell_word_user msg
  else
    send_message (chat_id msg) wrong_message None None ;;
    db_call (fun d => (tt, DatabaseUtils.update_points d user_id 3 false)) ;;
    start_game depth msg.

(** Python truth value of the result of [search_word]. *)
Definition truthy (found : option Z) : bool :=
  match found with
  | None => false
  | Some i => negb (Z.eqb i 0)
  end.

Definition added_message (w0 translation : string) : string :=
  ("Слово " ++ PyStr.dquote ++ w0 ++ PyStr.dquote ++ " с переводом " ++
   PyStr.dquote ++ translation ++ PyStr.dquote ++ " было успешно добавлено.")%string.

Definition duplicate_message (w0 : string) : string :=
  ("Слово " ++ PyStr.dquote ++ w0 ++ PyStr.dquote ++
   " уже существует в вашей базе данных.")%string.

Definition bad_format_message : string := "Неверный формат. Попробуйте снова.".

Definition _save_new_word (depth : nat) (msg : message) (user_id : Z) : M unit :=
  let fields := PyStr.split_comma (lower (text msg)) in
  if String.eqb (strip (hd EmptyString fields)) (lower BTN_Back) then
    start_game depth msg
  else
    match fields with
    | [f0; f1] =>
        let w0 := strip f0 in
        let translation := strip f1 in
        found <- db_query (fun d => DatabaseUtils.search_word d w0 (Some user_id)) ;;
        if negb (truthy found) then
          db_call (fun d => DatabaseUtils.save_word d w0 translation (Some user_id)) ;;
          send_message (chat_id msg) (added_message w0 translation) None None ;;
          word_message <- _format_user_words user_id ;;
          send_message (chat_id msg)
                       (word_message ++ PyStr.nl ++ continue_prompt)%string
                       (Some start_button) html
        else
          send_message (chat_id msg) (duplicate_message w0) None None
    | _ => send_message (chat_id msg) bad_format_message None None
    end.

Definition deleted_message (w0 : string) : string :=
  ("Слово <b>" ++ capitalize w0 ++ "</b> успешно удалено из базы данных." ++
   PyStr.nl ++ "Для продолжения нажмите кнопку.")%string.

Definition not_deleted_message (w0 : string) : string :=
  ("Слово <b>" ++ capitalize w0 ++ "</b> не удалось удалить из базы данных." ++
   PyStr.nl ++ "Для продолжения нажмите кнопку.")%string.

Definition _delete_user_word (depth : nat) (msg : message) (user_id : Z) : M unit :=
  let w0 := strip (lower (text msg)) in
  if String.eqb w0 (lower BTN_Back) then
    start_game depth msg
  else
    deleted <- db_call (fun d => DatabaseUtils.delete_word d w0 user_id) ;;
    if deleted : bool then
      send_message (chat_id msg) (deleted_message w0) (Some start_button) html
    else
      send_message (chat_id msg) (not_deleted_message w0) (Some start_button) html.

End Handlers.

(** ** Notions used by the statements *)

(** What the schema of [add_tabl] guarantees: primary keys are distinct
    and were drawn from the SERIAL counters, which start at 1;
    [users.telegram_user_id] is UNIQUE. *)
Record consistent (d : database) : Prop := mk_consistent
  { users_keys : NoDup (map u_id (users d));
    users_unique : NoDup (map u_telegram_user_id (users d));
    users_serial : Forall (fun u => 1 <= u_id u < users_seq d)%Z (users d);
    word_keys : NoDup (map w_id (word d));
    word_serial : Forall (fun r => 1 <= w_id r < word_seq d)%Z (word d);
    users_word_keys : NoDup (map uw_id (users_word d));
    users_word_serial :
      Forall (fun r => 1 <= uw_id r < users_word_seq d)%Z (users_word d);
    serial_start :
      (1 <= users_seq d /\ 1 <= word_seq d /\ 1 <= users_word_seq d)%Z }.

(** The cumulative exposure of a word to a user, as the subquery of
    [get_random_words_for_user] sums it. *)
Definition exposure (d : database) (telegram_user_id : Z) (word_id : Z) : Z :=
  DatabaseUtils.group_sum (DatabaseUtils.rows_of_user d telegram_user_id)
                          (Some word_id).

(** The row of [users_word] after [times_shown = times_shown + 1]. *)
Definition shown_once_more (r : users_word_row) : users_word_row :=
  mk_users_word_row (uw_id r) (uw_user_id r) (uw_word_id r)
                    (uw_times_shown r + 1).

(** The source call of [word_generator], up to the [try] block. *)
Definition chosen_source (depth : nat) (msg : message) : M word_dict :=
  flag <- randint0 2 ;;
  logger (Debug ("def word_generator:flag " ++
                 PyStr.str_int (Z.of_nat flag))%string) ;;
  word_source depth flag (from_user_id msg).

(** Labels and string methods for the worked examples; the case mappings
    are those of the ASCII letters. *)
Definition example_buttons : BtnText :=
  {| BTN_STAR_GEME := "start";
     BTN_VIEW_RATING := "rating";
     BTN_ADD_WORD := "add word";
     BTN_DEL_WORD := "delete word";
     BTN_Back := "back" |}.

Definition ascii_lower_char (c : ascii) : ascii :=
  let n := nat_of_ascii c in
  if (Nat.leb 65 n && Nat.leb n 90)%bool then ascii_of_nat (n + 32) else c.

Definition ascii_upper_char (c : ascii) : ascii :=
  let n := nat_of_ascii c in
  if (Nat.leb 97 n && Nat.leb n 122)%bool then ascii_of_nat (n - 32) else c.

Fixpoint map_string (f : ascii -> ascii) (s : string) : string :=
  match s with
  | EmptyString => EmptyString
  | String c rest => String (f c) (map_string f rest)
  end.

Definition ascii_methods : StrMethods :=
  {| lower := map_string ascii_lower_char;
     capitalize := fun s =>
       match s with
       | EmptyString => EmptyString
       | String c rest =>
           String (ascii_upper_char c) (map_string ascii_lower_char rest)
       end;
     strip := PyStr.strip |}.

(** The shared word list is used up and the store has no word left that
    the user may still be shown. *)
Definition depleted (user_id : Z) (w : world) : Prop :=
  match csv w with Some rows => tl rows = [] | None => True end /\
  DatabaseUtils.eligible_words (db w) user_id false = [].

(** A method that can only add rows to table [word]: the other tables
    and counters are as before, and a consistent store stays consistent. *)
Definition only_adds_words (d d' : database) : Prop :=
  users d' = users d /\
  users_word d' = users_word d /\
  users_seq d' = users_seq d /\
  users_word_seq d' = users_word_seq d /\
  (exists extra, word d' = word d ++ extra) /\
  (consistent d -> consistent d').

(** [keeps R c]: whatever [c] does, returning or raising, its final world
    is related to its initial world by [R]. *)
Definition keeps {A} (R : world -> world -> Prop) (c : M A) : Prop :=
  forall w, R w (snd (c w)).

(** [yields Q c]: every value that [c] returns satisfies [Q]. *)
Definition yields {A} (Q : A -> Prop) (c : M A) : Prop :=
  forall w a w', c w = (Returned a, w') -> Q a.

(** Relations on worlds that only look at the store. *)
Definition on_db (S : database -> database -> Prop) (w w' : world) : Prop :=
  S (db w) (db w').

(** The local dictionary of an attempt. *)
Definition attempt_dict (a : attempt) : word_dict :=
  match a with Done d => d | Failed _ d => d end.

(** A store for the worked examples: one registered player and four
    shared words, none of them shown yet. *)
Definition example_db : database :=
  mk_database
    [mk_users_row 1 111 "ann" 0]
    [mk_word_row 1 None "кот" "cat"; mk_word_row 2 None "дом" "house";
     mk_word_row 3 None "стол" "table"; mk_word_row 4 None "окно" "window"]
    [] 2 5 1.

(** The same store in a world whose shared word file is used up; the
    random numbers select the general pool ([flag = 2]). *)
Definition example_world : world :=
  mk_world example_db (Some [["russian"; "english"]]) [2; 0; 0; 0; 0; 0; 0; 0]
           [] [] [].

Definition example_message (reply : string) : message :=
  mk_message 7 111 reply.

(** Stores for the rating examples: five and six players, stored in
    no particular order of points. *)
Definition five_players : database :=
  mk_database
    [mk_users_row 1 11 "ann" 70; mk_users_row 2 12 "bob" 90;
     mk_users_row 3 13 "eve" 100; mk_users_row 4 14 "dan" 60;
     mk_users_row 5 15 "kim" 80]
    [] [] 6 1 1.

Definition six_players : database :=
  mk_database (users five_players ++ [mk_users_row 6 16 "lee" 50]) [] [] 7 1 1.

Definition world_of (d : database) : world := mk_world d None [] [] [] [].

(** A world in which ann has added the word [sun] herself. *)
Definition own_word_world : world :=
  world_of (snd (DatabaseUtils.save_word example_db "sun" "солнце" (Some 111%Z))).

(** A world whose word file still has the row [кот, kitty], while the
    store knows [кот] as [cat]. *)
Definition kitty_world : world :=
  mk_world
    (mk_database
       [mk_users_row 1 111 "ann" 0]
       [mk_word_row 1 None "кот" "cat"; mk_word_row 2 None "дом" "house";
        mk_word_row 3 None "стол" "table"]
       [] 2 4 1)
    (Some [["russian"; "english"]; ["кот"; "kitty"]])
    [] [] [] [].

(** A store in which ann has mastered the only shared word. *)
Definition mastered_db : database :=
  mk_database
    [mk_users_row 1 111 "ann" 4]
    [mk_word_row 1 None "кот" "cat"]
    [mk_users_word_row 1 1 (Some 1%Z) 4]
    2 2 2.

(** That store, with the word file used up and any random numbers. *)
Definition mastered_world (numbers : list nat) : world :=
  mk_world mastered_db (Some [["russian"; "english"]]) numbers [] [] [].

(** [final] is [original.update(extra)] read key by key: the entries of
    [extra] win, the other keys read as in [original], and the keys of
    [original] come first, in their order. *)
Definition merged (original extra final : word_dict) : Prop :=
  final = PyDict.update original extra /\
  (forall term entry, PyDict.get extra term = Some entry ->
                      PyDict.get final term = Some entry) /\
  (forall term, PyDict.get extra term = None ->
                PyDict.get final term = PyDict.get original term) /\
  (exists added, PyDict.keys final = PyDict.keys original ++ added).

(** The example store after ann has answered [кот] correctly three
    times. *)
Definition three_shows_db : database :=
  mk_database (users example_db) (word example_db)
              [mk_users_word_row 1 1 (Some 1%Z) 3] 2 5 2.

(** The order of the rating: no fewer points than the next player. *)
Definition points_desc (a b : users_row) : Prop := (u_points b <= u_points a)%Z.

(** [DatabaseUtils.save_user].  Modelled from the spec:
    [Database.insert_data] on table [users] ([createUser(name,
    externalId)]); the row gets the next SERIAL id and the default of
    column [points], 0. *)
Definition save_user (d : database) (name : string) (tg_user_id : Z) : database :=
  mk_database (users d ++ [mk_users_row (users_seq d) tg_user_id name 0])
              (word d) (users_word d)
              (users_seq d + 1) (word_seq d) (users_word_seq d).

(** A world whose word file still has five rows. *)
Definition full_file_world : world :=
  mk_world example_db
           (Some [["russian"; "english"]; ["солнце"; "sun"]; ["луна"; "moon"];
                  ["рыба"; "fish"]; ["птица"; "bird"]; ["звезда"; "star"]])
           [3; 1; 4; 1; 5] [] [] [].



(** * Properties *)

(** ** Dictionaries *)

Module PyDictFacts.
Import PyDict.
Section Facts.
Variable V : Type.
Implicit Types (d other : dict V) (k : string) (v : V).

Lemma get_set_same d k v : get (set d k v) k = Some v.
Proof.
  induction d as [|[k' v'] d IH]; simpl.
  - now rewrite String.eqb_refl.
  - destruct (String.eqb k' k) eqn:E; simpl; rewrite E; auto.
Qed.

Lemma get_set_other d k k' v : k <> k' -> get (set d k v) k' = get d k'.
Proof.
  intros Hne. induction d as [|[k0 v0] d IH]; simpl.
  - destruct (String.eqb_spec k k'); congruence.
  - destruct (String.eqb_spec k0 k) as [->|Hk]; simpl.
    + destruct (String.eqb_spec k k'); congruence.
    + destruct (String.eqb_spec k0 k'); auto.
Qed.

Lemma get_none_not_key d k : get d k = None <-> ~ In k (keys d).
Proof.
  induction d as [|[k0 v0] d IH]; simpl; [tauto|].
  destruct (String.eqb_spec k0 k) as [->|Hk].
  - split; [discriminate | tauto].
  - rewrite IH. tauto.
Qed.

Lemma keys_set_present d k v : In k (keys d) -> keys (set d k v) = keys d.
Proof.
  induction d as [|[k0 v0] d IH]; simpl; [tauto|].
  intros H. destruct (String.eqb_spec k0 k) as [->|Hk]; simpl; [reflexivity|].
  f_equal. apply IH. destruct H; congruence.
Qed.

Lemma keys_set_absent d k v : ~ In k (keys d) -> keys (set d k v) = keys d ++ [k].
Proof.
  induction d as [|[k0 v0] d IH]; simpl; [reflexivity|].
  intros H. destruct (String.eqb_spec k0 k) as [->|Hk]; simpl; [tauto|].
  f_equal. apply IH. tauto.
Qed.

Lemma wf_set d k v : wf d -> wf (set d k v).
Proof.
  unfold wf. intros H.
  destruct (in_dec string_dec k (keys d)) as [Hin|Hout].
  - now rewrite keys_set_present.
  - rewrite keys_set_absent by assumption.
    apply NoDup_app; [assumption | repeat constructor; simpl; tauto |].
    intros x Hx [<-|[]]. tauto.
Qed.

Lemma wf_update d other : wf d -> wf (update d other).
Proof.
  unfold update. revert d.
  induction other as [|[k v] other IH]; simpl; intros d H; [assumption|].
  apply IH, wf_set, H.
Qed.

Lemma wf_of_pairs (l : list (string * V)) : wf (of_pairs l).
Proof. apply wf_update. constructor. Qed.

Lemma in_set d k v x : In x (set d k v) -> In x d \/ x = (k, v).
Proof.
  induction d as [|[k0 v0] d IH]; simpl.
  - intros [<-|[]]. now right.
  - destruct (String.eqb_spec k0 k) as [->|Hk]; simpl.
    + intros [<-|H]; auto.
    + intros [<-|H]; auto. destruct (IH H); auto.
Qed.

Lemma in_update d other x : In x (update d other) -> In x d \/ In x other.
Proof.
  unfold update. revert d.
  induction other as [|[k v] other IH]; simpl; intros d H; [now left|].
  destruct (IH _ H) as [H1|H1]; [|now right; right].
  destruct (in_set _ _ _ _ H1) as [H2|H2]; [now left | right; left; now symmetry].
Qed.

Lemma len_set_le d k v : len d <= len (set d k v).
Proof.
  unfold len. induction d as [|[k0 v0] d IH]; simpl; [lia|].
  destruct (String.eqb k0 k); simpl; lia.
Qed.

Lemma len_update_le d other : len d <= len (update d other).
Proof.
  unfold update. revert d.
  induction other as [|[k v] other IH]; simpl; intros d; [lia|].
  etransitivity; [apply len_set_le | apply IH].
Qed.

(** [d.update(other)] reads like [other] wherever [other] has the key,
    and like [d] elsewhere. *)
Lemma get_update d other k :
  wf other ->
  get (update d other) k =
  match get other k with Some v => Some v | None => get d k end.
Proof.
  unfold update, wf. revert d.
  induction other as [|[k0 v0] other IH]; simpl; intros d Hwf; [reflexivity|].
  inversion Hwf as [|? ? Hout Hwf']; subst.
  rewrite IH by assumption.
  destruct (String.eqb_spec k0 k) as [->|Hk].
  - apply get_none_not_key in Hout. rewrite Hout. apply get_set_same.
  - destruct (get other k); [reflexivity|]. now apply get_set_other.
Qed.

(** The keys of [d] keep their positions in [d.update(other)]. *)
Lemma keys_update_prefix d other :
  exists extra, keys (update d other) = keys d ++ extra.
Proof.
  unfold update. revert d.
  induction other as [|[k v] other IH]; simpl; intros d.
  - exists []. now rewrite app_nil_r.
  - destruct (IH (set d k v)) as [extra He]. rewrite He.
    destruct (in_dec string_dec k (keys d)) as [Hin|Hout].
    + rewrite keys_set_present by assumption. now exists extra.
    + rewrite keys_set_absent by assumption. exists ([k] ++ extra).
      now rewrite app_assoc.
Qed.

End Facts.
End PyDictFacts.

(** ** The monad *)

Section MonadFacts.
Context {A B : Type}.

Lemma bind_returned (c : M A) (k : A -> M B) w a w' :
  c w = (Returned a, w') -> bind c k w = k a w'.
Proof. unfold bind. now intros ->. Qed.

Lemma bind_raised (c : M A) (k : A -> M B) w e w' :
  c w = (Raised e, w') -> bind c k w = (Raised e, w').
Proof. unfold bind. now intros ->. Qed.

Lemma bind_inv (c : M A) (k : A -> M B) w b w' :
  bind c k w = (Returned b, w') ->
  exists a w1, c w = (Returned a, w1) /\ k a w1 = (Returned b, w').
Proof.
  unfold bind. destruct (c w) as [[a|e] w1]; [eauto | discriminate].
Qed.

End MonadFacts.

Section Keeps.
Variable R : world -> world -> Prop.
Context {HR : PreOrder R}.

Lemma keeps_ret A (a : A) : keeps R (ret a).
Proof. intros w. reflexivity. Qed.

Lemma keeps_raise A e : keeps R (@raise A e).
Proof. intros w. reflexivity. Qed.

Lemma keeps_bind A B (c : M A) (k : A -> M B) :
  keeps R c -> (forall a, keeps R (k a)) -> keeps R (bind c k).
Proof.
  intros Hc Hk w. unfold bind. specialize (Hc w).
  destruct (c w) as [[a|e] w1]; simpl in *; [|assumption].
  etransitivity; [eassumption | apply Hk].
Qed.

Lemma keeps_try_except A (c : M A) (h : exn -> M A) :
  keeps R c -> (forall e, keeps R (h e)) -> keeps R (try_except c h).
Proof.
  intros Hc Hh w. unfold try_except. specialize (Hc w).
  destruct (c w) as [[a|e] w1]; simpl in *; [assumption|].
  etransitivity; [eassumption | apply Hh].
Qed.

Lemma keeps_guarded A d (c : M A) (k : A -> M attempt) :
  keeps R c -> (forall a, keeps R (k a)) -> keeps R (guarded d c k).
Proof.
  intros Hc Hk w. unfold guarded. specialize (Hc w).
  destruct (c w) as [[a|e] w1]; simpl in *; [|assumption].
  etransitivity; [eassumption | apply Hk].
Qed.

Lemma keeps_index A (l : list A) i : keeps R (index l i).
Proof. unfold index. destruct (nth_error l i); [apply keeps_ret | apply keeps_raise]. Qed.

End Keeps.

#[local] Instance only_adds_words_preorder : PreOrder only_adds_words.
Proof.
  split.
  - intros d. unfold only_adds_words. repeat (split; [reflexivity|]).
    split; [|auto]. exists []. now rewrite app_nil_r.
  - intros d1 d2 d3 (H1 & H2 & H3 & H4 & [x Hx] & H6) (K1 & K2 & K3 & K4 & [y Hy] & K6).
    unfold only_adds_words. repeat (split; [congruence|]).
    split; [|auto]. exists (x ++ y). rewrite Hy, Hx. now rewrite app_assoc.
Qed.

#[local] Instance on_db_preorder S (HS : PreOrder S) : PreOrder (on_db S).
Proof.
  split.
  - intros w. unfold on_db. reflexivity.
  - intros a b c. unfold on_db. apply HS.
Qed.

Section KeepsStore.
Variable S : database -> database -> Prop.
Context {HS : PreOrder S}.

Lemma keeps_logger e : keeps (on_db S) (logger e).
Proof. intros w. unfold on_db. simpl. reflexivity. Qed.

Lemma keeps_put_csv rows : keeps (on_db S) (put_csv rows).
Proof. intros w. unfold on_db. simpl. reflexivity. Qed.

Lemma keeps_send_message c m k p : keeps (on_db S) (send_message c m k p).
Proof. intros w. unfold on_db. simpl. reflexivity. Qed.

Lemma keeps_register c h : keeps (on_db S) (register_next_step_handler c h).
Proof. intros w. unfold on_db. simpl. reflexivity. Qed.

Lemma keeps_db_query A (f : database -> A) : keeps (on_db S) (db_query f).
Proof. intros w. unfold on_db. simpl. reflexivity. Qed.

Lemma keeps_read_csv_file : keeps (on_db S) read_csv_file.
Proof. intros w. unfold on_db, read_csv_file. destruct (csv w); simpl; reflexivity. Qed.

Lemma keeps_next_random : keeps (on_db S) next_random.
Proof. intros w. unfold on_db, next_random. destruct (tape w); simpl; reflexivity. Qed.

Lemma keeps_db_call A (f : database -> A * database) :
  (forall d, S d (snd (f d))) -> keeps (on_db S) (db_call f).
Proof.
  intros Hf w. unfold on_db, db_call. specialize (Hf (db w)).
  destruct (f (db w)); simpl in *. assumption.
Qed.

Lemma keeps_randint0 hi : keeps (on_db S) (randint0 hi).
Proof.
  unfold randint0. apply (keeps_bind (R := on_db S)); [apply keeps_next_random|].
  intros r. apply (keeps_ret (R := on_db S)).
Qed.

Lemma keeps_sample_loop A k : forall (l : list A), keeps (on_db S) (sample_loop k l).
Proof.
  induction k as [|k IH]; intros l; simpl; [apply (keeps_ret (R := on_db S))|].
  destruct l as [|x l]; [apply (keeps_ret (R := on_db S))|].
  apply (keeps_bind (R := on_db S)); [apply keeps_next_random|]. intros r.
  apply (keeps_bind (R := on_db S)); [apply IH|]. intros rest. apply (keeps_ret (R := on_db S)).
Qed.

Lemma keeps_sample A (l : list A) k : keeps (on_db S) (sample l k).
Proof.
  unfold sample. destruct (Nat.ltb _ _); [apply (keeps_raise (R := on_db S)) | apply keeps_sample_loop].
Qed.

Lemma keeps_shuffle A (l : list A) : keeps (on_db S) (shuffle l).
Proof. apply keeps_sample_loop. Qed.

Lemma keeps_get_random_words_for_user u q flag :
  keeps (on_db S) (get_random_words_for_user u q flag).
Proof.
  unfold get_random_words_for_user.
  apply (keeps_bind (R := on_db S)); [apply keeps_db_query|]. intros rows.
  apply (keeps_bind (R := on_db S)); [apply keeps_sample_loop|]. intros sel. apply (keeps_ret (R := on_db S)).
Qed.

End KeepsStore.

(** ** The two word sources that call each other *)

Lemma sample_loop_nil A k (w : world) : @sample_loop A k [] w = (Returned [], w).
Proof. destruct k; reflexivity. Qed.

Lemma depleted_same u w w' :
  db w' = db w -> csv w' = csv w -> depleted u w -> depleted u w'.
Proof. unfold depleted. intros -> ->. auto. Qed.

Lemma stuck depth : forall u q w,
  1 <= q -> depleted u w ->
  (exists w', read_words_csv depth u q w = (Raised RecursionError, w') /\
              db w' = db w /\ csv w' = csv w) /\
  (exists w', read_words_bd depth u q w = (Raised RecursionError, w') /\
              db w' = db w /\ csv w' = csv w).
Proof.
  induction depth as [|depth IH]; intros u q w Hq Hdep.
  - split; eexists; (split; [reflexivity | split; reflexivity]).
  - destruct q as [|q']; [lia|]. set (q := S q') in *. split.
    + cbn [read_words_csv]. unfold bind at 1. cbn [logger].
      set (w1 := mk_world _ _ _ _ _ _).
      assert (Hdep1 : depleted u w1) by (apply (@depleted_same u w w1); auto).
      unfold bind at 1. unfold guarded at 1. unfold read_csv_file.
      destruct Hdep1 as [Hcsv Hel].
      destruct (csv w1) as [rows|] eqn:Ecsv.
      * rewrite Hcsv. cbn [List.length]. 
        change (if Nat.ltb 0 q then 0 else q) with 0.
        unfold guarded at 1. unfold sample. cbn [List.length sample_loop ret].
        change (Nat.ltb 0 0) with false. cbv iota.
        unfold bind at 1. cbn [csv_rows ret].
        unfold guarded at 1.
        change (Nat.ltb (PyDict.len (@nil (string * (string * Z)))) q) with true.
        cbv iota.
        unfold bind at 1.
        destruct (IH u (q - PyDict.len (@nil (string * (string * Z)))) w1) as [_ (w2 & E2 & Hd2 & Hc2)].
        { subst q; cbn; lia. } { split; [rewrite Ecsv|]; assumption. }
        rewrite E2.
        unfold bind at 1. cbn [logger].
        set (w3 := mk_world _ _ _ _ _ _).
        unfold bind at 1.
        destruct (IH u q w3) as [_ (w4 & E4 & Hd4 & Hc4)]; [assumption| |].
        { apply (@depleted_same u w1 w3); auto. }
        rewrite E4. eexists; split; [reflexivity|].
        subst w3 w1; cbn in *. split; congruence.
      * unfold bind at 1. cbn [logger].
        set (w3 := mk_world _ _ _ _ _ _).
        unfold bind at 1.
        destruct (IH u q w3) as [_ (w4 & E4 & Hd4 & Hc4)]; [assumption| |].
        { apply (@depleted_same u w1 w3); auto. }
        rewrite E4. eexists; split; [reflexivity|].
        subst w3 w1; cbn in *. split; congruence.
    + cbn [read_words_bd]. unfold bind at 1. cbn [logger].
      set (w1 := mk_world _ _ _ _ _ _).
      assert (Hdep1 : depleted u w1) by (apply (@depleted_same u w w1); auto).
      unfold bind at 1. unfold get_random_words_for_user.
      unfold bind at 1. unfold db_query at 1. 
      destruct Hdep1 as [Hcsv Hel]. rewrite Hel.
      unfold bind at 1. rewrite sample_loop_nil. cbn [ret DatabaseUtils.words_dict_of map PyDict.of_pairs PyDict.update fold_left].
      change (Nat.ltb (PyDict.len (@nil (string * (string * Z)))) q) with true.
      cbv iota.
      unfold bind at 1.
      destruct (IH u (q - PyDict.len (@nil (string * (string * Z)))) w1) as [(w2 & E2 & Hd2 & Hc2) _].
      { subst q; cbn; lia. } { split; assumption. }
      rewrite E2. eexists; split; [reflexivity|]. subst w1; cbn in *. split; congruence.
Qed.

(** ** The store *)

Lemma NoDup_snoc_fresh (l : list Z) (i : Z) :
  NoDup l -> Forall (fun x => x < i)%Z l -> NoDup (l ++ [i]).
Proof.
  intros Hl Hlt. apply NoDup_app; [assumption | repeat constructor; simpl; tauto |].
  intros x Hx [<-|[]]. rewrite Forall_forall in Hlt. specialize (Hlt _ Hx). lia.
Qed.

Lemma insert_word_consistent d u r t :
  consistent d -> consistent (snd (insert_word d u r t)).
Proof.
  intros [H1 H2 H3 H4 H5 H6 H7 H8]. unfold insert_word. split; simpl; auto.
  - rewrite map_app. simpl. apply NoDup_snoc_fresh; [assumption|].
    rewrite Forall_map. eapply Forall_impl; [|exact H5]. simpl. intros; lia.
  - apply Forall_app. split.
    + eapply Forall_impl; [|exact H5]. simpl. intros; lia.
    + repeat constructor; simpl; lia.
  - lia.
Qed.

Lemma insert_users_word_consistent d u wid n :
  consistent d -> consistent (insert_users_word d u wid n).
Proof.
  intros [H1 H2 H3 H4 H5 H6 H7 H8]. unfold insert_users_word. split; simpl; auto.
  - rewrite map_app. simpl. apply NoDup_snoc_fresh; [assumption|].
    rewrite Forall_map. eapply Forall_impl; [|exact H7]. simpl. intros; lia.
  - apply Forall_app. split.
    + eapply Forall_impl; [|exact H7]. simpl. intros; lia.
    + repeat constructor; simpl; lia.
  - lia.
Qed.

Lemma save_word_only_adds d w t u :
  only_adds_words d (snd (DatabaseUtils.save_word d w t u)).
Proof.
  unfold only_adds_words, DatabaseUtils.save_word.
  repeat (split; [reflexivity|]). split.
  - eexists. reflexivity.
  - apply insert_word_consistent.
Qed.

(** ** Word selection only adds words *)

Ltac keeps_step :=
  match goal with
  | |- keeps ?R (ret _) => apply (keeps_ret (R := R))
  | |- keeps ?R (raise _) => apply (keeps_raise (R := R))
  | |- keeps ?R (bind _ _) => apply (keeps_bind (R := R))
  | |- keeps ?R (try_except _ _) => apply (keeps_try_except (R := R))
  | |- keeps ?R (guarded _ _ _) => apply (keeps_guarded (R := R))
  | |- keeps ?R (index _ _) => apply (keeps_index (R := R))
  | |- keeps (on_db ?S) (logger _) => apply (keeps_logger (S := S))
  | |- keeps (on_db ?S) (put_csv _) => apply (keeps_put_csv (S := S))
  | |- keeps (on_db ?S) (send_message _ _ _ _) => apply (keeps_send_message (S := S))
  | |- keeps (on_db ?S) (register_next_step_handler _ _) =>
      apply (keeps_register (S := S))
  | |- keeps (on_db ?S) (db_query _) => apply (keeps_db_query (S := S))
  | |- keeps (on_db ?S) read_csv_file => apply (keeps_read_csv_file (S := S))
  | |- keeps (on_db ?S) (sample _ _) => apply (keeps_sample (S := S))
  | |- keeps (on_db ?S) (sample_loop _ _) => apply (keeps_sample_loop (S := S))
  | |- keeps (on_db ?S) (shuffle _) => apply (keeps_shuffle (S := S))
  | |- keeps (on_db ?S) (randint0 _) => apply (keeps_randint0 (S := S))
  | |- keeps (on_db ?S) (get_random_words_for_user _ _ _) =>
      apply (keeps_get_random_words_for_user (S := S))
  | |- keeps _ (match ?x with _ => _ end) => destruct x
  | |- forall _, _ => intro
  end.

Ltac keeps_auto := repeat keeps_step.

Section OnlyAddsWords.
Lemma keeps_save_word w t u :
  keeps (on_db only_adds_words) (db_call (fun d => DatabaseUtils.save_word d w t u)).
Proof. apply keeps_db_call. intros; apply save_word_only_adds. Qed.

Lemma keeps_csv_rows sel : forall d, keeps (on_db only_adds_words) (csv_rows sel d).
Proof.
  induction sel as [|row sel IH]; intros d; simpl; keeps_auto;
    solve [apply keeps_save_word | apply IH].
Qed.

Lemma keeps_sources depth :
  (forall u q, keeps (on_db only_adds_words) (read_words_csv depth u q)) /\
  (forall u q, keeps (on_db only_adds_words) (read_words_bd depth u q)).
Proof.
  induction depth as [|depth [IHcsv IHbd]]; (split; intros u q); simpl; keeps_auto;
    solve [apply keeps_csv_rows | apply IHcsv | apply IHbd].
Qed.

Lemma keeps_read_words_bd_added_user depth u :
  keeps (on_db only_adds_words) (read_words_bd_added_user depth u).
Proof.
  unfold read_words_bd_added_user. keeps_auto. apply keeps_sources.
Qed.

Lemma keeps_fallback_rows sel : forall d, keeps (on_db only_adds_words) (fallback_rows sel d).
Proof.
  induction sel as [|[w0 t] sel IH]; intros d; simpl; keeps_auto;
    solve [apply keeps_save_word | apply IH].
Qed.

Lemma keeps_get_fallback_words q : keeps (on_db only_adds_words) (get_fallback_words q).
Proof. unfold get_fallback_words. keeps_auto. apply keeps_fallback_rows. Qed.

Lemma keeps_word_source depth flag u : keeps (on_db only_adds_words) (word_source depth flag u).
Proof.
  unfold word_source. destruct flag as [|[|flag]];
    [apply keeps_sources | apply keeps_read_words_bd_added_user | apply keeps_sources].
Qed.

Lemma keeps_word_generator depth msg : keeps (on_db only_adds_words) (word_generator depth msg).
Proof.
  unfold word_generator, round_of, fallback_round. keeps_auto;
    solve [apply keeps_word_source | apply keeps_get_fallback_words].
Qed.

Lemma keeps_start_game (B : BtnText) depth msg : keeps (on_db only_adds_words) (start_game depth msg).
Proof.
  unfold start_game, translation_buttons. keeps_auto.
  apply keeps_word_generator.
Qed.

End OnlyAddsWords.

(** ** What the word sources return *)

Section Yields.
Context {A B : Type}.

Lemma yields_ret (Q : A -> Prop) a : Q a -> yields Q (ret a).
Proof. intros H w a' w' E. unfold ret in E. now inversion E; subst. Qed.

Lemma yields_raise (Q : A -> Prop) e : yields Q (raise e).
Proof. intros w a w' E. discriminate. Qed.

Lemma yields_bind (P : A -> Prop) (Q : B -> Prop) (c : M A) (k : A -> M B) :
  yields P c -> (forall a, P a -> yields Q (k a)) -> yields Q (bind c k).
Proof.
  intros Hc Hk w b w' E. apply bind_inv in E as (a & w1 & E1 & E2).
  eapply Hk; [eapply Hc|]; eassumption.
Qed.

Lemma yields_any (c : M A) : yields (fun _ => True) c.
Proof. now intros w a w' _. Qed.

End Yields.

Lemma yields_guarded A (P : A -> Prop) (Q : attempt -> Prop) d
      (c : M A) (k : A -> M attempt) :
  yields P c -> (forall e, Q (Failed e d)) ->
  (forall a, P a -> yields Q (k a)) ->
  yields Q (guarded d c k).
Proof.
  intros Hc Hd Hk w a w' E. unfold guarded in E.
  destruct (c w) as [[x|e] w1] eqn:Ec.
  - eapply Hk; [eapply Hc|]; eassumption.
  - inversion E; subst. apply Hd.
Qed.

Lemma wf_words_dict_of rows : PyDict.wf (DatabaseUtils.words_dict_of rows).
Proof. apply PyDictFacts.wf_of_pairs. Qed.

Lemma yields_wf_get_random_words_for_user u q flag :
  yields PyDict.wf (get_random_words_for_user u q flag).
Proof.
  unfold get_random_words_for_user.
  eapply yields_bind; [apply yields_any|]. intros rows _.
  eapply yields_bind; [apply yields_any|]. intros sel _.
  apply yields_ret, wf_words_dict_of.
Qed.

Lemma yields_wf_csv_rows sel : forall d,
  PyDict.wf d -> yields (fun a => PyDict.wf (attempt_dict a)) (csv_rows sel d).
Proof.
  induction sel as [|row sel IH]; intros d Hd; simpl.
  - now apply yields_ret.
  - eapply yields_guarded; [apply yields_any | intros; exact Hd |]. intros w0 _.
    eapply yields_guarded; [apply yields_any | intros; exact Hd |]. intros entry _.
    apply IH, PyDictFacts.wf_set, Hd.
Qed.

Lemma wf_nil V : PyDict.wf (@nil (string * V)).
Proof. constructor. Qed.

(** Every dictionary that a word source returns has distinct terms. *)
Lemma yields_wf_sources depth :
  (forall u q, yields PyDict.wf (read_words_csv depth u q)) /\
  (forall u q, yields PyDict.wf (read_words_bd depth u q)).
Proof.
  induction depth as [|depth [IHcsv IHbd]]; (split; intros u q); simpl;
    try apply yields_raise.
  - eapply yields_bind; [apply yields_any|]. intros _ _.
    eapply yields_bind with (P := fun a => PyDict.wf (attempt_dict a)).
    + eapply yields_guarded; [apply yields_any | intros; apply wf_nil |].
      intros words _.
      eapply yields_guarded; [apply yields_any | intros; apply wf_nil |].
      intros sel _.
      eapply yields_bind; [apply yields_wf_csv_rows, wf_nil|].
      intros [d|e d] Hd; simpl in Hd; [|now apply yields_ret].
      eapply yields_guarded with (P := @PyDict.wf (string * Z));
        [| intros; exact Hd |].
      * destruct (Nat.ltb _ _); [|now apply yields_ret].
        eapply yields_bind; [apply yields_any|]. intros result _.
        apply yields_ret, PyDictFacts.wf_update, Hd.
      * intros d' Hd'. eapply yields_bind; [apply yields_any|]. intros _ _.
        now apply yields_ret.
    + intros [d|e d] Hd; simpl in Hd; [now apply yields_ret|].
      eapply yields_bind; [apply yields_any|]. intros _ _.
      eapply yields_bind; [apply yields_any|]. intros result _.
      apply yields_ret, PyDictFacts.wf_update, Hd.
  - eapply yields_bind; [apply yields_any|]. intros _ _.
    eapply yields_bind; [apply yields_wf_get_random_words_for_user|].
    intros result Hr.
    destruct (Nat.ltb _ _); [|now apply yields_ret].
    eapply yields_bind; [apply yields_any|]. intros csv_word _.
    apply yields_ret, PyDictFacts.wf_update, Hr.
Qed.

Lemma yields_wf_word_source depth flag u :
  yields PyDict.wf (word_source depth flag u).
Proof.
  unfold word_source. destruct flag as [|[|flag]]; try apply yields_wf_sources.
  unfold read_words_bd_added_user.
  eapply yields_bind; [apply yields_any|]. intros _ _.
  eapply yields_bind; [apply yields_wf_get_random_words_for_user|].
  intros result Hr.
  destruct (Nat.ltb _ _); [|now apply yields_ret].
  eapply yields_bind; [apply yields_any|]. intros bd_word _.
  apply yields_ret, PyDictFacts.wf_update, Hr.
Qed.

Lemma yields_wf_chosen_source depth msg :
  yields PyDict.wf (chosen_source depth msg).
Proof.
  unfold chosen_source.
  eapply yields_bind; [apply yields_any|]. intros flag _.
  eapply yields_bind; [apply yields_any|]. intros _ _.
  apply yields_wf_word_source.
Qed.

(** ** Random choices *)

Lemma remove_nth_incl A i : forall (l : list A), incl (remove_nth i l) l.
Proof.
  induction i as [|i IH]; intros [|x l]; simpl; try apply incl_refl.
  - apply incl_tl, incl_refl.
  - intros y [<-|Hy]; [now left | right; now apply IH].
Qed.

Lemma remove_nth_length A i : forall (l : list A),
  i < List.length l -> List.length (remove_nth i l) = List.length l - 1.
Proof.
  induction i as [|i IH]; intros [|x l]; simpl; intros H; try lia.
  rewrite IH by lia. lia.
Qed.

(** [sample_loop] never raises; it returns [min k (len l)] elements of
    [l] and leaves the store, the file, the log and the chat alone. *)
Lemma sample_loop_spec A k : forall (l : list A) w,
  exists sel w',
    sample_loop k l w = (Returned sel, w') /\
    incl sel l /\
    List.length sel = Nat.min k (List.length l) /\
    db w' = db w /\ csv w' = csv w /\ log w' = log w /\
    outbox w' = outbox w /\ next_step w' = next_step w.
Proof.
  induction k as [|k IH]; intros l w.
  - exists [], w. simpl. repeat split; auto. apply incl_nil_l.
  - destruct l as [|x0 l]; [exists [], w; simpl; repeat split; auto; apply incl_refl|].
    cbn [sample_loop]. unfold bind at 1.
    destruct (next_random w) as [r0 w1] eqn:Er.
    assert (Hr : exists r, r0 = Returned r /\ db w1 = db w /\ csv w1 = csv w /\
                          log w1 = log w /\ outbox w1 = outbox w /\
                          next_step w1 = next_step w).
    { unfold next_random in Er. destruct (tape w); inversion Er; subst;
        eexists; simpl; repeat split; reflexivity. }
    destruct Hr as (r & -> & Hdb & Hcsv & Hlog & Hout & Hns).
    set (i := r mod List.length (x0 :: l)).
    assert (Hi : i < List.length (x0 :: l))
      by (apply Nat.mod_upper_bound; simpl; lia).
    destruct (IH (remove_nth i (x0 :: l)) w1)
      as (rest & w2 & E & Hincl & Hlen & Hdb2 & Hcsv2 & Hlog2 & Hout2 & Hns2).
    unfold bind. rewrite E. unfold ret.
    exists (nth i (x0 :: l) x0 :: rest), w2. split; [reflexivity|].
    split; [|split; [|repeat split; congruence]].
    + intros y [<-|Hy]; [now apply nth_In|].
      eapply remove_nth_incl, Hincl, Hy.
    + cbn [List.length]. rewrite Hlen, remove_nth_length by assumption.
      cbn [List.length]. lia.
Qed.

(** ** The mastery threshold *)

Lemma group_sum_nil key : DatabaseUtils.group_sum [] key = 0%Z.
Proof. reflexivity. Qed.

(** A group whose sum reaches the threshold has a row (the sum of no row
    is 0), and that row puts the word in the subquery. *)
Lemma mastered_in_subquery d tg wid :
  (4 <= exposure d tg wid)%Z ->
  existsb (sql_eq (Some wid)) (DatabaseUtils.mastered_ids d tg) = true.
Proof.
  unfold exposure, DatabaseUtils.mastered_ids.
  set (rows := DatabaseUtils.rows_of_user d tg). intros H.
  assert (Hex : exists uw, In uw rows /\ uw_word_id uw = Some wid).
  { unfold DatabaseUtils.group_sum in H.
    destruct (filter (fun uw => DatabaseUtils.same_group (uw_word_id uw) (Some wid)) rows)
      as [|uw l] eqn:E; [simpl in H; lia|].
    assert (Hin : In uw (uw :: l)) by now left.
    rewrite <- E in Hin. apply filter_In in Hin as [Hin Hg].
    exists uw. split; [assumption|].
    destruct (uw_word_id uw) as [x|]; simpl in Hg; [|discriminate].
    apply Z.eqb_eq in Hg. now subst. }
  destruct Hex as (uw & Hin & Hw).
  apply existsb_exists. exists (Some wid). split.
  - apply in_map_iff. exists uw. split; [assumption|].
    apply filter_In. split; [assumption|]. rewrite Hw. now apply Z.leb_le.
  - simpl. apply Z.eqb_refl.
Qed.

Lemma eligible_not_mastered d tg flag r :
  In r (DatabaseUtils.eligible_words d tg flag) ->
  (exposure d tg (w_id r) < 4)%Z.
Proof.
  unfold DatabaseUtils.eligible_words. intros H.
  apply filter_In in H as [_ H]. apply andb_prop in H as [H _].
  unfold sql_not_in in H. apply andb_prop in H as [H _].
  destruct (Z.lt_ge_cases (exposure d tg (w_id r)) 4) as [|Hge]; [assumption|].
  apply mastered_in_subquery in Hge. rewrite Hge in H. discriminate.
Qed.

Lemma words_dict_of_from_rows rows term tr id :
  In (term, (tr, id)) (DatabaseUtils.words_dict_of rows) ->
  exists r, In r rows /\ w_russian_words r = term /\
            w_translation r = tr /\ w_id r = id.
Proof.
  unfold DatabaseUtils.words_dict_of, PyDict.of_pairs. intros H.
  apply PyDictFacts.in_update in H as [[]|H].
  apply in_map_iff in H as (r & E & Hin). inversion E; subst. eauto.
Qed.


(** ** The round *)

Lemma round_of_cons term tr id rest w :
  round_of ((term, (tr, id)) :: rest) w =
  (Returned (term, tr, map (fun e => fst (snd e)) rest, Some id), w).
Proof.
  unfold round_of, index, bind, ret. simpl. rewrite String.eqb_refl.
  unfold PyDict.values. now rewrite map_map.
Qed.

Lemma word_generator_after_source depth msg w d w1 :
  chosen_source depth msg w = (Returned d, w1) ->
  word_generator depth msg w =
  (logger (DebugDict "def word_generator:word_dict " d) ;;
   try_except (round_of d)
              (fun e => logger (Error error_generator e) ;; fallback_round)) w1.
Proof.
  unfold chosen_source, word_generator. intros H.
  apply bind_inv in H as (flag & w2 & E1 & H).
  apply bind_inv in H as (u & w3 & E2 & H).
  unfold bind at 1. rewrite E1. unfold bind at 1. rewrite E2.
  unfold bind at 1. now rewrite H.
Qed.

(** The exception of a source reaches the caller of [word_generator]:
    the source is called before the [try] block. *)
Lemma word_generator_source_raises depth msg w e w1 :
  chosen_source depth msg w = (Raised e, w1) ->
  word_generator depth msg w = (Raised e, w1).
Proof.
  unfold chosen_source, word_generator, bind.
  destruct (randint0 2 w) as [[flag|e0] w2];
    [|intros H; inversion H; reflexivity].
  destruct (logger _ w2) as [[u|e1] w3];
    [|intros H; inversion H; reflexivity].
  destruct (word_source depth flag (from_user_id msg) w3) as [[d|e2] w4];
    [discriminate | intros H; inversion H; reflexivity].
Qed.

(** C6. When the chosen source yields [quantity] words, [word_generator]
    returns the first word with its translation and its id, and as
    distractors the translations of the other [quantity - 1] words, whose
    terms all differ from the prompt. *)
Theorem C6_round_from_full_source depth msg w d w1 quantity :
  chosen_source depth msg w = (Returned d, w1) ->
  PyDict.len d = quantity ->
  1 <= quantity ->
  exists term translation id rest w',
    d = (term, (translation, id)) :: rest /\
    word_generator depth msg w =
      (Returned (term, translation, map (fun e => fst (snd e)) rest, Some id), w') /\
    List.length (map (fun e : string * (string * Z) => fst (snd e)) rest)
      = quantity - 1 /\
    ~ In term (PyDict.keys rest).
Proof.
  intros Hsrc Hlen Hq.
  pose proof (@yields_wf_chosen_source depth msg w d w1 Hsrc) as Hwf.
  destruct d as [|[term [tr id]] rest]; [simpl in Hlen; lia|].
  exists term, tr, id, rest. eexists. split; [reflexivity|]. split; [|split].
  - erewrite word_generator_after_source by exact Hsrc.
    unfold bind at 1. cbn [logger]. unfold try_except.
    rewrite round_of_cons. reflexivity.
  - rewrite length_map. unfold PyDict.len in Hlen. simpl in Hlen. lia.
  - unfold PyDict.wf in Hwf. simpl in Hwf. now inversion Hwf.
Qed.

Lemma C6_round_from_full_source_witness :
  exists term translation id rest w',
    word_generator 5 (example_message "cat") example_world =
      (Returned (term, translation, map (fun e => fst (snd e)) rest, Some id), w') /\
    List.length (map (fun e : string * (string * Z) => fst (snd e)) rest) = 3 /\
    ~ In term (PyDict.keys rest).
Proof.
  destruct (@C6_round_from_full_source 5 (example_message "cat") example_world
              [("кот", ("cat", 1%Z)); ("дом", ("house", 2%Z));
               ("стол", ("table", 3%Z)); ("окно", ("window", 4%Z))]
              (snd (chosen_source 5 (example_message "cat") example_world)) 4)
    as (term & tr & id & rest & w' & _ & H).
  - vm_compute. reflexivity.
  - reflexivity.
  - lia.
  - exists term, tr, id, rest, w'. exact H.
Defined.

(** ** The rating *)

Lemma find_position_found l : forall i tg p,
  find_position (enumerate_from i l) tg = Some p ->
  i + 1 <= p /\
  exists own, nth_error l (p - 1 - i) = Some own /\
              DatabaseUtils.telegram_user_id own = tg.
Proof.
  induction l as [|u l IH]; intros i tg p; simpl; [discriminate|].
  destruct (Z.eqb_spec (DatabaseUtils.telegram_user_id u) tg) as [E|NE].
  - intros H. inversion H; subst. split; [lia|].
    replace (i + 1 - 1 - i) with 0 by lia. now exists u.
  - intros H. apply IH in H as (Hp & own & Hn & Ht). split; [lia|].
    exists own. split; [|assumption].
    replace (p - 1 - i) with (S (p - 1 - S i)) by lia. exact Hn.
Qed.

Lemma firstn_three A (l : list A) :
  3 <= List.length l -> exists a b c, firstn 3 l = [a; b; c].
Proof.
  destruct l as [|a [|b [|c l]]]; simpl; intros H; try lia. now exists a, b, c.
Qed.

Lemma append_assoc (a b c : string) :
  ((a ++ b) ++ c)%string = (a ++ b ++ c)%string.
Proof. induction a as [|x a IH]; simpl; [reflexivity | now rewrite IH]. Qed.

(** The first loop finds the first entry of the requester. *)
Lemma find_position_at l : forall i tg k own,
  nth_error l k = Some own ->
  DatabaseUtils.telegram_user_id own = tg ->
  (forall j u, j < k -> nth_error l j = Some u ->
               DatabaseUtils.telegram_user_id u <> tg) ->
  find_position (enumerate_from i l) tg = Some (i + k + 1).
Proof.
  induction l as [|x l IH]; intros i tg k own Hn Ht Hbefore.
  - destruct k; discriminate.
  - cbn [enumerate_from find_position]. destruct k as [|k].
    + simpl in Hn. inversion Hn; subst. rewrite Z.eqb_refl. f_equal. lia.
    + destruct (Z.eqb_spec (DatabaseUtils.telegram_user_id x) tg) as [E|_].
      * exfalso. apply (Hbefore 0 x); [lia | reflexivity | assumption].
      * rewrite (IH (S i) tg k own); [f_equal; lia | assumption | assumption |].
        intros j u Hj Hu. apply (Hbefore (S j) u); [lia | exact Hu].
Qed.

(** One line of the rating, character by character. *)
Lemma rating_entry_text medal user :
  (rating_line medal user ++ PyStr.nl)%string =
  (medal ++ " " ++ DatabaseUtils.name user ++ " - " ++
   String "034"
     (NilZero.string_of_int (Z.to_int (DatabaseUtils.points user)) ++
      " очков" ++ String "034" (String "010" EmptyString)))%string.
Proof.
  unfold rating_line, PyStr.str_int, PyStr.dquote, PyStr.nl.
  rewrite !append_assoc. reflexivity.
Qed.

(** C8. A requester whose first entry in the rating is at rank 6 or
    below gets: the entries of ranks 1, 2 and 3, each as medal, name and
    quoted points on a line of its own; a line of three dots; and his own
    rank, name and points between bold tags. [_get_medal] gives the three
    medals to ranks 1, 2, 3 and the number with a period to any other
    rank. *)
Theorem C8_rating_below_fifth w tg p own :
  6 <= p ->
  nth_error (DatabaseUtils.get_player_ratings (db w)) (p - 1) = Some own ->
  DatabaseUtils.telegram_user_id own = tg ->
  (forall j u, j < p - 1 ->
               nth_error (DatabaseUtils.get_player_ratings (db w)) j = Some u ->
               DatabaseUtils.telegram_user_id u <> tg) ->
  (exists u1 u2 u3,
      firstn 3 (DatabaseUtils.get_player_ratings (db w)) = [u1; u2; u3] /\
      display_player_rating tg w =
      (Returned
         (("🥇 " ++ DatabaseUtils.name u1 ++ " - " ++
           String "034"
             (NilZero.string_of_int (Z.to_int (DatabaseUtils.points u1)) ++
              " очков" ++ String "034" (String "010" EmptyString))) ++
          ("🥈 " ++ DatabaseUtils.name u2 ++ " - " ++
           String "034"
             (NilZero.string_of_int (Z.to_int (DatabaseUtils.points u2)) ++
              " очков" ++ String "034" (String "010" EmptyString))) ++
          ("🥉 " ++ DatabaseUtils.name u3 ++ " - " ++
           String "034"
             (NilZero.string_of_int (Z.to_int (DatabaseUtils.points u3)) ++
              " очков" ++ String "034" (String "010" EmptyString))) ++
          ("..." ++ String "010" EmptyString) ++
          ("<b>" ++
           String "009"
             (NilZero.string_of_int (Z.to_int (Z.of_nat p)) ++ "." ++
              DatabaseUtils.name own ++ " - " ++
              String "034"
                (NilZero.string_of_int (Z.to_int (DatabaseUtils.points own)) ++
                 " очков" ++ String "034" "</b>"))))%string, w)) /\
  _get_medal 1 = "🥇" /\ _get_medal 2 = "🥈" /\ _get_medal 3 = "🥉" /\
  (forall n, n <> 1 -> n <> 2 -> n <> 3 ->
             _get_medal n
             = (NilZero.string_of_int (Z.to_int (Z.of_nat n)) ++ ".")%string).
Proof.
  intros Hp Hown Htg Hfirst. split.
  - assert (Hpos : find_position
                     (enumerate_from 0 (DatabaseUtils.get_player_ratings (db w))) tg
                   = Some p).
    { rewrite (@find_position_at _ 0 tg (p - 1) own Hown Htg Hfirst).
      f_equal. lia. }
    assert (Hlen : 3 <= List.length (DatabaseUtils.get_player_ratings (db w))).
    { assert (p - 1 < List.length (DatabaseUtils.get_player_ratings (db w)))
        by (apply nth_error_Some; congruence). lia. }
    destruct (firstn_three _ Hlen) as (u1 & u2 & u3 & Htop).
    exists u1, u2, u3. split; [assumption|].
    unfold display_player_rating, bind, db_query. rewrite Hpos.
    destruct p as [|[|[|[|[|[|p]]]]]]; try lia.
    unfold rating_entries. cbn [Nat.leb Nat.eqb orb].
    unfold bind, index. rewrite Hown, Htop. unfold ret.
    cbn [enumerate_from map app String.concat Nat.add _get_medal].
    rewrite !rating_entry_text. reflexivity.
  - repeat (split; [reflexivity|]).
    intros [|[|[|[|n]]]] H1 H2 H3; try congruence; reflexivity.
Qed.

Lemma C8_rating_below_fifth_witness :
  display_player_rating 16 (world_of six_players) =
  (Returned
     ("🥇 eve - " ++ String "034" ("100 очков" ++ String "034" (String "010"
      ("🥈 bob - " ++ String "034" ("90 очков" ++ String "034" (String "010"
      ("🥉 kim - " ++ String "034" ("80 очков" ++ String "034" (String "010"
      ("..." ++ String "010"
      ("<b>" ++ String "009"
         ("6.lee - " ++ String "034"
            ("50 очков" ++ String "034" "</b>")))))))))))))%string,
   world_of six_players).
Proof.
  destruct (@C8_rating_below_fifth (world_of six_players) 16 6
              (DatabaseUtils.mk_rating 16 "lee" 50))
    as [(u1 & u2 & u3 & Htop & H) _].
  - lia.
  - reflexivity.
  - reflexivity.
  - intros j u Hj Hu. simpl in Hj.
    do 5 (destruct j as [|j]; [inversion Hu; subst; simpl; lia|]). lia.
  - vm_compute in Htop. inversion Htop; subst. rewrite H. reflexivity.
Defined.

(** C7 as stated fails: with five players and the requester second, the
    text is not the two entries of ranks 1 and 2; the third entry
    follows. *)
Lemma C7_counterexample :
  exists u1 u2 u3 u4 u5,
    DatabaseUtils.get_player_ratings five_players = [u1; u2; u3; u4; u5] /\
    DatabaseUtils.telegram_user_id u2 = 12%Z /\
    fst (display_player_rating 12 (world_of five_players))
      <> Returned (_format_rating_entry 2 1 u1 ++
                   _format_rating_entry 2 2 u2)%string /\
    fst (display_player_rating 12 (world_of five_players))
      = Returned (_format_rating_entry 2 1 u1 ++
                  _format_rating_entry 2 2 u2 ++
                  _format_rating_entry 2 3 u3)%string.
Proof.
  do 5 eexists. split; [vm_compute; reflexivity|].
  split; [reflexivity|]. split; [|vm_compute; reflexivity].
  vm_compute. discriminate.
Qed.

(** C7, amended. A requester ranked second among five players gets three
    entries, ranks 1 to 3, of which the second, his own, is in bold. *)
Theorem C7_rating_second_of_five w tg :
  find_position (enumerate_from 0 (DatabaseUtils.get_player_ratings (db w))) tg
    = Some 2 ->
  List.length (DatabaseUtils.get_player_ratings (db w)) = 5 ->
  exists u1 u2 u3,
    firstn 3 (DatabaseUtils.get_player_ratings (db w)) = [u1; u2; u3] /\
    DatabaseUtils.telegram_user_id u2 = tg /\
    display_player_rating tg w =
    (Returned
       ((rating_line "🥇" u1 ++ PyStr.nl) ++
        ("<b>" ++ rating_line "🥈" u2 ++ "</b>" ++ PyStr.nl) ++
        (rating_line "🥉" u3 ++ PyStr.nl))%string, w).
Proof.
  intros Hpos Hlen.
  destruct (find_position_found _ _ _ Hpos) as (_ & own & Hown & Htg).
  destruct (@firstn_three _ (DatabaseUtils.get_player_ratings (db w)))
    as (u1 & u2 & u3 & Htop); [lia|].
  exists u1, u2, u3. split; [assumption|].
  assert (own = u2) as ->.
  { destruct (DatabaseUtils.get_player_ratings (db w)) as [|a [|b [|c l]]];
      simpl in *; try discriminate. inversion Htop; subst. now inversion Hown. }
  split; [assumption|].
  unfold display_player_rating, bind, db_query. rewrite Hpos.
  unfold rating_entries. cbn [Nat.leb]. unfold ret. rewrite Htop. reflexivity.
Qed.

Lemma C7_rating_second_of_five_witness :
  exists msg, display_player_rating 12 (world_of five_players)
              = (Returned msg, world_of five_players).
Proof.
  destruct (@C7_rating_second_of_five (world_of five_players) 12)
    as (u1 & u2 & u3 & _ & _ & H).
  - vm_compute. reflexivity.
  - vm_compute. reflexivity.
  - eexists. exact H.
Defined.

(** ** Exposure counters *)

Lemma bump_one_row (l : list users_word_row) uw :
  NoDup (map uw_id l) -> In uw l ->
  exists before after,
    l = before ++ uw :: after /\
    map (fun r => if Z.eqb (uw_id r) (uw_id uw)
                  then mk_users_word_row (uw_id r) (uw_user_id r) (uw_word_id r)
                                         (uw_times_shown r + 1)
                  else r) l
    = before ++ shown_once_more uw :: after.
Proof.
  intros Hnd Hin. apply in_split in Hin as (before & after & ->).
  exists before, after. split; [reflexivity|].
  rewrite map_app in Hnd. simpl in Hnd.
  pose proof (NoDup_remove_2 _ _ _ Hnd) as Hout.
  assert (Hid : forall rows, (forall r, In r rows -> uw_id r <> uw_id uw) ->
              map (fun r => if Z.eqb (uw_id r) (uw_id uw)
                            then mk_users_word_row (uw_id r) (uw_user_id r)
                                   (uw_word_id r) (uw_times_shown r + 1)
                            else r) rows = rows).
  { induction rows as [|r rows IH]; simpl; intros H; [reflexivity|].
    destruct (Z.eqb_spec (uw_id r) (uw_id uw)) as [E|_].
    - exfalso. apply (H r); auto.
    - f_equal. apply IH. auto. }
  rewrite map_app. simpl. rewrite Z.eqb_refl.
  rewrite !Hid; [reflexivity | |].
  - intros r Hr E. apply Hout, in_or_app. right. rewrite <- E. now apply in_map.
  - intros r Hr E. apply Hout, in_or_app. left. rewrite <- E. now apply in_map.
Qed.

Lemma user_id_of_select d tg uid :
  DatabaseUtils.user_id_of d tg = Some uid ->
  exists rest, DatabaseUtils.select_user_id d tg = uid :: rest.
Proof.
  unfold DatabaseUtils.user_id_of.
  destruct (DatabaseUtils.select_user_id d tg) as [|x rest]; simpl;
    [discriminate|]. intros E. inversion E; subst. now exists rest.
Qed.

(** The rows that the first query of [update_times_shown] selects are the
    rows of that user and that word. *)
Lemma select_users_word_In d tg wid uid r :
  DatabaseUtils.user_id_of d tg = Some uid ->
  In r (DatabaseUtils.select_users_word d tg (Some wid)) <->
  In r (users_word d) /\ uw_user_id r = uid /\ uw_word_id r = Some wid.
Proof.
  intros Hu. unfold DatabaseUtils.select_users_word. rewrite filter_In, Hu.
  rewrite andb_true_iff. simpl. rewrite Z.eqb_eq.
  destruct (uw_word_id r) as [x|]; simpl.
  - rewrite Z.eqb_eq. intuition congruence.
  - intuition discriminate.
Qed.


Ltac solve_consistent :=
  split; simpl;
  repeat match goal with
         | |- NoDup _ => constructor
         | |- Forall _ _ => constructor
         | |- ~ In _ _ => simpl; intuition discriminate
         | |- _ /\ _ => split
         | |- (_ <= _)%Z => simpl; lia
         | |- (_ < _)%Z => simpl; lia
         end.

Lemma example_db_consistent : consistent example_db.
Proof. solve_consistent. Qed.


(** ** The personal word store *)

Lemma search_word_found d term owner r :
  In r (word d) -> w_russian_words r = term -> w_user_id r = Some owner ->
  exists r', In r' (word d) /\
             DatabaseUtils.search_word d term (Some owner) = Some (w_id r').
Proof.
  intros Hin Ht Ho. unfold DatabaseUtils.search_word.
  destruct (filter (DatabaseUtils.word_matches term (Some owner)) (word d))
    as [|r' l] eqn:E.
  - exfalso. assert (Hf : In r (filter (DatabaseUtils.word_matches term (Some owner))
                                       (word d))).
    { apply filter_In. split; [assumption|].
      unfold DatabaseUtils.word_matches. rewrite Ht, Ho, String.eqb_refl.
      simpl. apply Z.eqb_refl. }
    rewrite E in Hf. destruct Hf.
  - exists r'. split; [|reflexivity].
    assert (Hf : In r' (r' :: l)) by now left.
    rewrite <- E in Hf. now apply filter_In in Hf.
Qed.

Lemma filter_none A (f : A -> bool) (l : list A) :
  (forall x, In x l -> f x = false) -> filter f l = [].
Proof.
  induction l as [|x l IH]; simpl; intros H; [reflexivity|].
  rewrite (H x) by now left. apply IH. auto.
Qed.

Lemma filter_all A (f : A -> bool) (l : list A) :
  (forall x, In x l -> f x = true) -> filter f l = l.
Proof.
  induction l as [|x l IH]; simpl; intros H; [reflexivity|].
  rewrite (H x) by now left. f_equal. apply IH. auto.
Qed.

(** Deleting a word that the user does not have changes nothing and
    answers [False]. *)
Lemma delete_word_missing d term owner :
  (forall r, In r (word d) ->
             ~ (w_russian_words r = term /\ w_user_id r = Some owner)) ->
  DatabaseUtils.delete_word d term owner = (false, d).
Proof.
  intros Hnone.
  assert (Hno : forall r, In r (word d) ->
                  DatabaseUtils.word_matches term (Some owner) r = false).
  { intros r Hr. unfold DatabaseUtils.word_matches.
    destruct (String.eqb_spec (w_russian_words r) term) as [E|]; [|reflexivity].
    destruct (w_user_id r) as [o|] eqn:Eo; simpl; [|reflexivity].
    destruct (Z.eqb_spec o owner) as [->|]; [|reflexivity].
    exfalso. apply (Hnone r Hr). now split. }
  unfold DatabaseUtils.delete_word, delete_from_word.
  rewrite (filter_none _ _ Hno). simpl.
  rewrite !filter_all.
  - now destruct d.
  - reflexivity.
  - intros r Hr. now rewrite Hno.
Qed.

Section PersonalWords.
Context {B : BtnText} {U : StrMethods}.

(** C9. Adding a word that the user already has sends the message
    [Слово "..." уже существует в вашей базе данных.] and leaves the store
    as it is, so no second row is made; deleting a word that the user does
    not have makes [delete_word] answer [False] with the store unchanged,
    and the handler returns after sending the message that it could not be
    deleted. *)
Theorem C9_duplicate_and_missing :
  (forall depth msg user_id w f0 f1 r,
      consistent (db w) ->
      PyStr.split_comma (lower (text msg)) = [f0; f1] ->
      strip f0 <> lower BTN_Back ->
      In r (word (db w)) ->
      w_russian_words r = strip f0 ->
      w_user_id r = Some user_id ->
      _save_new_word depth msg user_id w =
      (Returned tt,
       mk_world (db w) (csv w) (tape w) (log w)
                (outbox w ++
                 [mk_sent (chat_id msg)
                    ("Слово " ++
                     String "034"
                       (strip f0 ++
                        String "034" " уже существует в вашей базе данных."))%string
                    None None])
                (next_step w))) /\
  (forall depth msg user_id w,
      strip (lower (text msg)) <> lower BTN_Back ->
      (forall r, In r (word (db w)) ->
                 ~ (w_russian_words r = strip (lower (text msg)) /\
                    w_user_id r = Some user_id)) ->
      DatabaseUtils.delete_word (db w) (strip (lower (text msg))) user_id
        = (false, db w) /\
      _delete_user_word depth msg user_id w =
      (Returned tt,
       mk_world (db w) (csv w) (tape w) (log w)
                (outbox w ++
                 [mk_sent (chat_id msg)
                    ("Слово <b>" ++ capitalize (strip (lower (text msg))) ++
                     "</b> не удалось удалить из базы данных." ++
                     String "010" "Для продолжения нажмите кнопку.")%string
                    (Some [BTN_STAR_GEME]) (Some "HTML")])
                (next_step w))).
Proof.
  split.
  - intros depth msg user w f0 f1 r Hc Hsplit Hback Hin Ht Ho.
    unfold _save_new_word. rewrite Hsplit. cbn [hd].
    destruct (String.eqb_spec (strip f0) (lower BTN_Back)) as [|_];
      [contradiction|].
    destruct (search_word_found (db w) r Hin Ht Ho) as (r' & Hin' & Hs).
    unfold bind at 1. unfold db_query. rewrite Hs.
    assert (Hid : (1 <= w_id r')%Z).
    { pose proof (word_serial Hc) as Hall. rewrite Forall_forall in Hall.
      apply (Hall r' Hin'). }
    unfold truthy. destruct (Z.eqb_spec (w_id r') 0) as [E|_]; [lia|].
    reflexivity.
  - intros depth msg user w Hback Hnone.
    pose proof (delete_word_missing (db w) Hnone) as Hdel.
    split; [assumption|].
    unfold _delete_user_word.
    destruct (String.eqb_spec (strip (lower (text msg))) (lower BTN_Back))
      as [|_]; [contradiction|].
    unfold bind, db_call. rewrite Hdel. simpl. now destruct w.
Qed.

End PersonalWords.

Lemma C9_duplicate_and_missing_witness :
  _save_new_word (B := example_buttons) (U := ascii_methods)
                 5 (example_message "Sun, солнце") 111 own_word_world =
  (Returned tt,
   mk_world (db own_word_world) None [] []
            [mk_sent 7 ("Слово " ++ String "034" ("sun" ++ String "034"
                          " уже существует в вашей базе данных."))%string
                     None None]
            []) /\
  _delete_user_word (B := example_buttons) (U := ascii_methods)
                    5 (example_message "Moon") 111 own_word_world =
  (Returned tt,
   mk_world (db own_word_world) None [] []
            [mk_sent 7 ("Слово <b>Moon</b> не удалось удалить из базы данных." ++
                        String "010" "Для продолжения нажмите кнопку.")%string
                     (Some ["start"]) (Some "HTML")]
            []).
Proof.
  split.
  - rewrite (proj1 (@C9_duplicate_and_missing example_buttons ascii_methods)
               5 (example_message "Sun, солнце") 111%Z own_word_world
               "sun" " солнце"
               (mk_word_row 5 (Some 111%Z) "sun" "солнце")).
    + reflexivity.
    + apply insert_word_consistent, example_db_consistent.
    + reflexivity.
    + vm_compute. discriminate.
    + simpl. tauto.
    + reflexivity.
    + reflexivity.
  - destruct (proj2 (@C9_duplicate_and_missing example_buttons ascii_methods)
                5 (example_message "Moon") 111%Z own_word_world) as [_ E].
    + vm_compute. discriminate.
    + intros r Hr [Ht _]. simpl in Hr.
      repeat (destruct Hr as [<-|Hr]; [vm_compute in Ht; discriminate|]).
      destruct Hr.
    + rewrite E. reflexivity.
Defined.

(** ** Topping up from the other source *)

Lemma update_merged original extra :
  PyDict.wf extra -> merged original extra (PyDict.update original extra).
Proof.
  intros Hwf. unfold merged. split; [reflexivity|]. split; [|split].
  - intros term entry H. now rewrite PyDictFacts.get_update, H.
  - intros term H. now rewrite PyDictFacts.get_update, H.
  - apply PyDictFacts.keys_update_prefix.
Qed.

(** C3 as stated fails: the file gives [кот] as [kitty], the top-up from
    the store gives it as [cat], and the merged dictionary says [cat]. *)
Lemma C3_counterexample :
  fst (csv_rows [["кот"; "kitty"]] [] kitty_world)
    = Returned (Done [("кот", ("kitty", 1%Z))]) /\
  (exists extra,
      fst (read_words_bd 9 111 3 kitty_world) = Returned extra /\
      PyDict.get extra "кот" = Some ("cat", 1%Z)) /\
  (exists final,
      fst (read_words_csv 10 111 4 kitty_world) = Returned final /\
      PyDict.get final "кот" = Some ("cat", 1%Z) /\
      PyDict.get final "кот" <> Some ("kitty", 1%Z)).
Proof.
  split; [vm_compute; reflexivity|]. split.
  - eexists. split; vm_compute; reflexivity.
  - eexists. split; [vm_compute; reflexivity|].
    split; [vm_compute; reflexivity | vm_compute; discriminate].
Qed.

(** C3, amended. When a source returns too few words and tops them up
    from the other source, the result is the first dictionary updated
    with the top-up: a term of both takes the translation and id of the
    top-up, at the position it had; the other terms are unchanged. *)
Theorem C3_top_up_overwrites :
  (forall depth user_id quantity w result w1 csv_word w2,
      get_random_words_for_user user_id quantity false
        (snd (logger (Debug debug_bd) w)) = (Returned result, w1) ->
      PyDict.len result < quantity ->
      read_words_csv depth user_id (quantity - PyDict.len result) w1
        = (Returned csv_word, w2) ->
      read_words_bd (S depth) user_id quantity w
        = (Returned (PyDict.update result csv_word), w2) /\
      merged result csv_word (PyDict.update result csv_word)) /\
  (forall depth user_id quantity w words selected_words w1 words_dict w2 result w3,
      csv w = Some words ->
      sample (tl words) (if Nat.ltb (List.length (tl words)) quantity
                         then List.length (tl words) else quantity)
             (snd (logger (Debug debug_csv) w)) = (Returned selected_words, w1) ->
      csv_rows selected_words [] w1 = (Returned (Done words_dict), w2) ->
      PyDict.len words_dict < quantity ->
      read_words_bd depth user_id (quantity - PyDict.len words_dict) w2
        = (Returned result, w3) ->
      fst (read_words_csv (S depth) user_id quantity w)
        = Returned (PyDict.update words_dict result) /\
      merged words_dict result (PyDict.update words_dict result)).
Proof.
  split.
  - intros depth u q w result w1 csv_word w2 Hdb Hlen Hcsv. split.
    + cbn [read_words_bd]. unfold bind at 1.
      change (logger (Debug debug_bd) w)
        with (Returned tt, snd (logger (Debug debug_bd) w)).
      cbv iota. unfold bind at 1. rewrite Hdb.
      apply Nat.ltb_lt in Hlen. rewrite Hlen.
      unfold bind. rewrite Hcsv. reflexivity.
    + apply update_merged.
      exact (proj1 (yields_wf_sources depth) _ _ _ _ _ Hcsv).
  - intros depth u q w words sel w1 wd w2 result w3 Hfile Hsel Hrows Hlen Hbd.
    split.
    + cbn [read_words_csv]. unfold bind at 1.
      change (logger (Debug debug_csv) w)
        with (Returned tt, snd (logger (Debug debug_csv) w)).
      cbv iota. unfold bind at 1. unfold guarded at 1.
      unfold read_csv_file at 1. cbn [logger snd csv]. rewrite Hfile.
      unfold guarded at 1. cbn [logger snd] in Hsel. rewrite Hfile in Hsel.
      rewrite Hsel.
      unfold bind at 1. rewrite Hrows.
      unfold guarded at 1. apply Nat.ltb_lt in Hlen. rewrite Hlen.
      unfold bind at 1. rewrite Hbd. reflexivity.
    + apply update_merged.
      exact (proj2 (yields_wf_sources depth) _ _ _ _ _ Hbd).
Qed.

Lemma C3_top_up_overwrites_witness :
  fst (read_words_csv 10 111 4 kitty_world)
    = Returned (PyDict.update
                  [("кот", ("kitty", 1%Z))]
                  [("кот", ("cat", 1%Z)); ("дом", ("house", 2%Z));
                   ("стол", ("table", 3%Z))]).
Proof.
  refine (proj1 (proj2 C3_top_up_overwrites 9 111%Z 4 kitty_world
                   [["russian"; "english"]; ["кот"; "kitty"]]
                   [["кот"; "kitty"]] _ _ _ _ _ eq_refl _ _ _ _)).
  - vm_compute. reflexivity.
  - vm_compute. reflexivity.
  - vm_compute. lia.
  - vm_compute. reflexivity.
Defined.

(** ** When nothing is left to show *)

Lemma mastered_world_depleted numbers : depleted 111 (mastered_world numbers).
Proof. split; reflexivity. Qed.

(** C10, at the failing input. With the word file used up and every
    shared word mastered, [read_words_bd] and [read_words_csv] keep calling
    each other: whatever the recursion limit and the random numbers, the
    call ends in [RecursionError] and returns no dictionary. *)
Theorem C10_top_up_never_returns depth numbers :
  fst (read_words_bd depth 111 4 (mastered_world numbers))
    = Raised RecursionError /\
  fst (read_words_csv depth 111 4 (mastered_world numbers))
    = Raised RecursionError.
Proof.
  destruct (@stuck depth 111%Z 4 (mastered_world numbers))
    as [(w1 & E1 & _) (w2 & E2 & _)];
    [lia | apply mastered_world_depleted |].
  now rewrite E1, E2.
Qed.

(** With nothing left in either source, every choice of source fails. *)
Lemma chosen_source_stuck depth msg w :
  depleted (from_user_id msg) w ->
  DatabaseUtils.eligible_words (db w) (from_user_id msg) true = [] ->
  exists w', chosen_source depth msg w = (Raised RecursionError, w').
Proof.
  intros Hdep Hown. unfold chosen_source.
  unfold bind at 1. unfold randint0, bind at 1.
  destruct (next_random w) as [r0 w1] eqn:Er.
  assert (Hr : exists r, r0 = Returned r /\ db w1 = db w /\ csv w1 = csv w).
  { unfold next_random in Er. destruct (tape w); inversion Er; subst;
      eexists; simpl; repeat split; reflexivity. }
  destruct Hr as (r & -> & Hdb & Hcsv). unfold ret.
  unfold bind at 1. cbn [logger].
  set (w2 := mk_world _ _ _ _ _ _).
  assert (Hdep2 : depleted (from_user_id msg) w2)
    by (apply (@depleted_same (from_user_id msg) w w2); auto).
  unfold word_source.
  destruct (r mod 3) as [|[|flag]].
  - destruct (@stuck depth (from_user_id msg) 4 w2) as [(w3 & E & _) _];
      [lia | assumption |]. eauto.
  - unfold read_words_bd_added_user. unfold bind at 1. cbn [logger].
    set (w3 := mk_world _ _ _ _ _ _).
    unfold bind at 1. unfold get_random_words_for_user, bind at 1.
    unfold db_query at 1. cbn [db w3 w2].
    rewrite Hdb, Hown. unfold bind at 1. rewrite sample_loop_nil.
    cbn [ret DatabaseUtils.words_dict_of map PyDict.of_pairs PyDict.update
         fold_left PyDict.len List.length Nat.ltb Nat.leb].
    destruct (@stuck depth (from_user_id msg) (4 - 0) w3) as [_ (w4 & E & _)];
      [simpl; lia | apply (@depleted_same (from_user_id msg) w2 w3); auto |].
    unfold bind. rewrite E. eauto.
  - destruct (@stuck depth (from_user_id msg) 4 w2) as [_ (w3 & E & _)];
      [lia | assumption |]. eauto.
Qed.

(** C1, at the failing input. In the same world [word_generator] raises
    [RecursionError] to its caller, whichever source it chooses: the
    source is called outside the [try] block, so the built-in list is
    never reached. *)
Theorem C1_word_generator_raises depth numbers reply :
  fst (word_generator depth (example_message reply) (mastered_world numbers))
    = Raised RecursionError.
Proof.
  destruct (@chosen_source_stuck depth (example_message reply)
              (mastered_world numbers)) as (w' & E);
    [apply mastered_world_depleted | reflexivity |].
  now rewrite (word_generator_source_raises _ _ _ E).
Qed.

(** ** Answers and exposure *)

(** C4, at the failing input. Ann is asked [кот] (word 1) and answers
    [dog]: the round is over, 3 points are gone, the next word has been
    sent, and no exposure row was written; the same word answered with
    [cat] leaves a row with [times_shown = 1]. *)
Theorem C4_wrong_answer_not_counted :
  fst (check_answer (B := example_buttons) 5 (example_message "dog")
         (Some 1%Z) "cat" example_world) = Returned tt /\
  users_word (db (snd (check_answer (B := example_buttons) 5
                         (example_message "dog") (Some 1%Z) "cat"
                         example_world))) = [] /\
  users (db (snd (check_answer (B := example_buttons) 5
                    (example_message "dog") (Some 1%Z) "cat"
                    example_world))) = [mk_users_row 1 111 "ann" (-3)] /\
  List.length (outbox (snd (check_answer (B := example_buttons) 5
                              (example_message "dog") (Some 1%Z) "cat"
                              example_world))) = 2 /\
  users_word (db (snd (check_answer (B := example_buttons) 5
                         (example_message "cat") (Some 1%Z) "cat"
                         example_world)))
  = [mk_users_word_row 1 1 (Some 1%Z) 1].
Proof. repeat split; vm_compute; reflexivity. Qed.

(** * Further properties of the code *)

(** ** Sampling *)

Lemma nth_remove_nth_perm A i : forall (l : list A) x0,
  i < List.length l -> Permutation (nth i l x0 :: remove_nth i l) l.
Proof.
  induction i as [|i IH]; intros [|x l] x0 H; simpl in *; try lia.
  - apply Permutation_refl.
  - etransitivity; [apply perm_swap|]. apply perm_skip, IH. lia.
Qed.

(** What [sample_loop] returns, together with what it left, is the
    population; only the random numbers are consumed. *)
Lemma sample_loop_perm A k : forall (l : list A) w,
  exists sel rest w',
    sample_loop k l w = (Returned sel, w') /\
    Permutation (sel ++ rest) l /\
    List.length sel = Nat.min k (List.length l) /\
    db w' = db w /\ csv w' = csv w /\ log w' = log w /\
    outbox w' = outbox w /\ next_step w' = next_step w.
Proof.
  induction k as [|k IH]; intros l w.
  - exists [], l, w. simpl. repeat split; auto.
  - destruct l as [|x0 l]; [exists [], [], w; simpl; repeat split; auto|].
    cbn [sample_loop]. unfold bind at 1.
    destruct (next_random w) as [r0 w1] eqn:Er.
    assert (Hr : exists r, r0 = Returned r /\ db w1 = db w /\ csv w1 = csv w /\
                          log w1 = log w /\ outbox w1 = outbox w /\
                          next_step w1 = next_step w).
    { unfold next_random in Er. destruct (tape w); inversion Er; subst;
        eexists; simpl; repeat split; reflexivity. }
    destruct Hr as (r & -> & Hdb & Hcsv & Hlog & Hout & Hns).
    set (i := r mod List.length (x0 :: l)).
    assert (Hi : i < List.length (x0 :: l))
      by (apply Nat.mod_upper_bound; simpl; lia).
    destruct (IH (remove_nth i (x0 :: l)) w1)
      as (sel & rest & w2 & E & Hperm & Hlen & Hdb2 & Hcsv2 & Hlog2 & Hout2 & Hns2).
    unfold bind. rewrite E. unfold ret.
    exists (nth i (x0 :: l) x0 :: sel), rest, w2. split; [reflexivity|].
    split; [|split; [|repeat split; congruence]].
    + cbn [app]. etransitivity; [apply perm_skip, Hperm|].
      now apply nth_remove_nth_perm.
    + cbn [List.length]. rewrite Hlen, remove_nth_length by assumption.
      cbn [List.length]. lia.
Qed.

Lemma shuffle_perm A (l : list A) w :
  exists sel w',
    shuffle l w = (Returned sel, w') /\ Permutation sel l /\
    db w' = db w /\ csv w' = csv w /\ log w' = log w /\
    outbox w' = outbox w /\ next_step w' = next_step w.
Proof.
  unfold shuffle.
  destruct (sample_loop_perm (List.length l) l w)
    as (sel & rest & w' & E & Hperm & Hlen & Hframe).
  exists sel, w'. split; [assumption|]. split; [|assumption].
  assert (rest = []) as ->.
  { apply Permutation_length in Hperm. rewrite length_app, Hlen in Hperm.
    rewrite Nat.min_id in Hperm. destruct rest; [reflexivity | simpl in Hperm; lia]. }
  now rewrite app_nil_r in Hperm.
Qed.

(** ** What a round does to the store *)

Section RoundEffects.
Context {B : BtnText}.

(** Presenting a word, whether [start_game] returns or raises, leaves
    the players and the exposure counters as they were and can only append
    rows to table [word]. *)
Theorem start_game_only_adds_words depth msg w :
  users (db (snd (start_game depth msg w))) = users (db w) /\
  users_word (db (snd (start_game depth msg w))) = users_word (db w) /\
  exists extra,
    word (db (snd (start_game depth msg w))) = word (db w) ++ extra.
Proof.
  destruct (keeps_start_game B depth msg w) as (H1 & H2 & _ & _ & H5 & _).
  auto.
Qed.

(** Presenting a word keeps the keys of the store distinct and below
    their counters. *)
Theorem start_game_consistent depth msg w :
  consistent (db w) -> consistent (db (snd (start_game depth msg w))).
Proof.
  destruct (keeps_start_game B depth msg w) as (_ & _ & _ & _ & _ & H).
  exact H.
Qed.

(** A reply that is neither the correct translation nor one of the three
    command buttons costs the sender 3 points and never touches an
    exposure counter, whatever the next round does. *)
Theorem check_answer_wrong depth msg id_word correct_translation w :
  text msg <> correct_translation ->
  text msg <> BTN_VIEW_RATING ->
  text msg <> BTN_ADD_WORD ->
  text msg <> BTN_DEL_WORD ->
  users_word (db (snd (check_answer depth msg id_word correct_translation w)))
    = users_word (db w) /\
  users (db (snd (check_answer depth msg id_word correct_translation w)))
    = map (fun u =>
             if Z.eqb (u_telegram_user_id u) (from_user_id msg)
             then mk_users_row (u_id u) (u_telegram_user_id u) (u_name u)
                               (u_points u - 3)
             else u)
          (users (db w)).
Proof.
  intros H1 H2 H3 H4. unfold check_answer.
  destruct (String.eqb_spec (text msg) correct_translation); [contradiction|].
  destruct (String.eqb_spec (text msg) BTN_VIEW_RATING); [contradiction|].
  destruct (String.eqb_spec (text msg) BTN_ADD_WORD); [contradiction|].
  destruct (String.eqb_spec (text msg) BTN_DEL_WORD); [contradiction|].
  erewrite (@bind_returned _ _ (send_message _ _ _ _)) by reflexivity.
  erewrite (@bind_returned _ _ (db_call _)) by reflexivity.
  match goal with
  | |- context [start_game depth msg ?w2] =>
      destruct (keeps_start_game B depth msg w2) as (Hu & Huw & _)
  end.
  rewrite Hu, Huw. split; reflexivity.
Qed.

End RoundEffects.

Lemma start_game_consistent_witness :
  consistent (db (snd (start_game (B := example_buttons) 5
                         (example_message "cat") example_world))).
Proof.
  apply (@start_game_consistent example_buttons 5 (example_message "cat")
           example_world).
  apply example_db_consistent.
Defined.

Lemma check_answer_wrong_witness :
  users_word (db (snd (check_answer (B := example_buttons) 5
                         (example_message "dog") (Some 1%Z) "cat"
                         example_world))) = [] /\
  users (db (snd (check_answer (B := example_buttons) 5
                    (example_message "dog") (Some 1%Z) "cat"
                    example_world))) = [mk_users_row 1 111 "ann" (-3)].
Proof.
  apply (@check_answer_wrong example_buttons 5 (example_message "dog")
           (Some 1%Z) "cat" example_world); vm_compute; discriminate.
Defined.

(** ** Counting exposure *)

Lemma sum_app (l1 l2 : list Z) :
  fold_right Z.add 0%Z (l1 ++ l2)
  = (fold_right Z.add 0 l1 + fold_right Z.add 0 l2)%Z.
Proof. induction l1 as [|x l1 IH]; simpl; [reflexivity | rewrite IH; lia]. Qed.

(** The sum that the subquery computes, over an explicit list of rows. *)
Lemma exposure_unfold d tg wid uid :
  DatabaseUtils.user_id_of d tg = Some uid ->
  exposure d tg wid =
  fold_right Z.add 0%Z
    (map uw_times_shown
       (filter (fun r => DatabaseUtils.same_group (uw_word_id r) (Some wid))
          (filter (fun r => Z.eqb (uw_user_id r) uid) (users_word d)))).
Proof.
  intros Hu. unfold exposure, DatabaseUtils.group_sum, DatabaseUtils.rows_of_user.
  rewrite Hu. reflexivity.
Qed.

Lemma same_group_some a wid :
  DatabaseUtils.same_group a (Some wid) = true <-> a = Some wid.
Proof.
  destruct a as [x|]; simpl; [|split; discriminate].
  rewrite Z.eqb_eq. split; congruence.
Qed.

Lemma update_times_shown_keeps_users d tg wid :
  users (snd (DatabaseUtils.update_times_shown d tg wid)) = users d.
Proof.
  unfold DatabaseUtils.update_times_shown.
  destruct (DatabaseUtils.select_users_word d tg wid); [|reflexivity].
  destruct (DatabaseUtils.select_user_id d tg); reflexivity.
Qed.

Lemma bump_times_shown_consistent d i :
  consistent d -> consistent (DatabaseUtils.bump_times_shown d i).
Proof.
  intros [H1 H2 H3 H4 H5 H6 H7 H8].
  assert (Hids : map uw_id (users_word (DatabaseUtils.bump_times_shown d i))
                 = map uw_id (users_word d)).
  { simpl. rewrite map_map. apply map_ext. intros r.
    now destruct (Z.eqb (uw_id r) i). }
  split; simpl; auto.
  - simpl in Hids. now rewrite Hids.
  - rewrite Forall_map. eapply Forall_impl; [|exact H7].
    intros r Hr. now destruct (Z.eqb (uw_id r) i).
Qed.

Lemma counted_row x uid wid r :
  uw_user_id r = uid -> uw_word_id r = Some wid ->
  filter (fun r => DatabaseUtils.same_group (uw_word_id r) (Some x))
         (filter (fun r => Z.eqb (uw_user_id r) uid) [r])
  = if Z.eqb x wid then [r] else [].
Proof.
  intros H1 H2. cbn [filter]. rewrite H1, Z.eqb_refl. cbn [filter].
  rewrite H2. simpl. rewrite (Z.eqb_sym wid x). now destruct (Z.eqb x wid).
Qed.

(** How one call of [update_times_shown] moves the sums of the user. *)
Lemma exposure_after_update d tg wid uid x :
  consistent d ->
  DatabaseUtils.user_id_of d tg = Some uid ->
  exposure (snd (DatabaseUtils.update_times_shown d tg (Some wid))) tg x
  = (exposure d tg x + if Z.eqb x wid then 1 else 0)%Z.
Proof.
  intros Hc Hu.
  assert (Hu' : DatabaseUtils.user_id_of
                  (snd (DatabaseUtils.update_times_shown d tg (Some wid))) tg
                = Some uid).
  { unfold DatabaseUtils.user_id_of, DatabaseUtils.select_user_id in *.
    now rewrite update_times_shown_keeps_users. }
  rewrite (exposure_unfold _ _ x Hu'), (exposure_unfold _ _ x Hu).
  unfold DatabaseUtils.update_times_shown.
  destruct (DatabaseUtils.select_users_word d tg (Some wid)) as [|uw rest] eqn:E.
  - destruct (user_id_of_select _ _ Hu) as (more & ->). cbn [snd].
    unfold insert_users_word. cbn [users_word].
    rewrite !filter_app, map_app, sum_app. f_equal.
    rewrite (@counted_row x uid wid) by reflexivity.
    now destruct (Z.eqb x wid).
  - assert (Huw : In uw (DatabaseUtils.select_users_word d tg (Some wid)))
      by (rewrite E; now left).
    apply (select_users_word_In d tg wid uw Hu) in Huw as (Hin & H1 & H2).
    destruct (bump_one_row _ uw (users_word_keys Hc) Hin)
      as (before & after & Hsplit & Hmap).
    cbn [snd]. unfold DatabaseUtils.bump_times_shown. cbn [users_word].
    rewrite Hmap, Hsplit.
    change (before ++ shown_once_more uw :: after)
      with (before ++ [shown_once_more uw] ++ after).
    change (before ++ uw :: after) with (before ++ [uw] ++ after).
    rewrite !filter_app, !map_app, !sum_app.
    rewrite (@counted_row x uid wid (shown_once_more uw)) by assumption.
    rewrite (@counted_row x uid wid uw) by assumption.
    destruct (Z.eqb x wid); cbn [map fold_right shown_once_more uw_times_shown];
      lia.
Qed.

(** One call of [update_times_shown] for a registered user raises the
    exposure of that word to that user by exactly 1, leaves his exposure
    to every other word as it was, and keeps the store consistent. *)
Theorem update_times_shown_exposure d tg wid uid :
  consistent d ->
  DatabaseUtils.user_id_of d tg = Some uid ->
  fst (DatabaseUtils.update_times_shown d tg (Some wid)) = Returned tt /\
  (exposure (snd (DatabaseUtils.update_times_shown d tg (Some wid))) tg wid
   = exposure d tg wid + 1)%Z /\
  (forall other, other <> wid ->
     exposure (snd (DatabaseUtils.update_times_shown d tg (Some wid))) tg other
     = exposure d tg other) /\
  consistent (snd (DatabaseUtils.update_times_shown d tg (Some wid))).
Proof.
  intros Hc Hu.
  split; [|split; [|split]].
  - unfold DatabaseUtils.update_times_shown.
    destruct (DatabaseUtils.select_users_word d tg (Some wid)); [|reflexivity].
    now destruct (user_id_of_select _ _ Hu) as (more & ->).
  - rewrite (@exposure_after_update d tg wid uid wid Hc Hu), Z.eqb_refl. reflexivity.
  - intros other Hne. rewrite (@exposure_after_update d tg wid uid other Hc Hu).
    destruct (Z.eqb_spec other wid); [contradiction | lia].
  - unfold DatabaseUtils.update_times_shown.
    destruct (DatabaseUtils.select_users_word d tg (Some wid)).
    + destruct (user_id_of_select _ _ Hu) as (more & ->). cbn [snd].
      now apply insert_users_word_consistent.
    + cbn [snd]. now apply bump_times_shown_consistent.
Qed.

Lemma update_times_shown_exposure_witness :
  exposure (snd (DatabaseUtils.update_times_shown example_db 111 (Some 3%Z))) 111 3
  = (exposure example_db 111 3 + 1)%Z.
Proof.
  apply (@update_times_shown_exposure example_db 111 3 1
           example_db_consistent eq_refl).
Defined.

(** The call that brings the exposure of a word to 4 takes the word out
    of both selections for that user. *)
Theorem fourth_show_retires_word d tg wid uid flag :
  consistent d ->
  DatabaseUtils.user_id_of d tg = Some uid ->
  exposure d tg wid = 3%Z ->
  forall r,
    In r (DatabaseUtils.eligible_words
            (snd (DatabaseUtils.update_times_shown d tg (Some wid))) tg flag) ->
    w_id r <> wid.
Proof.
  intros Hc Hu H3 r Hr Hid.
  apply eligible_not_mastered in Hr. rewrite Hid in Hr.
  rewrite (@exposure_after_update d tg wid uid wid Hc Hu), Z.eqb_refl, H3 in Hr. lia.
Qed.

Lemma update_times_shown_returns d tg wid uid :
  DatabaseUtils.user_id_of d tg = Some uid ->
  exists d', DatabaseUtils.update_times_shown d tg (Some wid) = (Returned tt, d').
Proof.
  intros Hu. unfold DatabaseUtils.update_times_shown.
  destruct (DatabaseUtils.select_users_word d tg (Some wid)); [|eauto].
  destruct (user_id_of_select _ _ Hu) as (more & ->). eauto.
Qed.

Lemma update_times_shown_raises d tg wid :
  DatabaseUtils.user_id_of d tg = None ->
  DatabaseUtils.update_times_shown d tg wid = (Raised IndexError, d).
Proof.
  intros Hu. unfold DatabaseUtils.update_times_shown.
  assert (Hsel : DatabaseUtils.select_users_word d tg wid = []).
  { unfold DatabaseUtils.select_users_word. rewrite Hu. apply filter_none.
    intros r _. destruct (uw_word_id r), wid; simpl;
      rewrite ?andb_false_r; reflexivity. }
  rewrite Hsel. unfold DatabaseUtils.user_id_of in Hu.
  destruct (DatabaseUtils.select_user_id d tg); [reflexivity | discriminate].
Qed.

(** For a sender who is not registered [update_times_shown] finds no
    row to increment and no internal id to insert under: it raises
    [IndexError] and leaves the store as it is. *)
Theorem update_times_shown_unregistered d tg wid :
  DatabaseUtils.user_id_of d tg = None ->
  DatabaseUtils.update_times_shown d tg wid = (Raised IndexError, d) /\
  (forall d', DatabaseUtils.update_times_shown d tg wid <> (Returned tt, d')).
Proof.
  intros Hu. rewrite (@update_times_shown_raises d tg wid Hu).
  split; [reflexivity | discriminate].
Qed.

Lemma update_times_shown_unregistered_witness :
  DatabaseUtils.update_times_shown example_db 999 (Some 1%Z)
  = (Raised IndexError, example_db).
Proof.
  apply (proj1 (@update_times_shown_unregistered example_db 999 (Some 1%Z)
                  eq_refl)).
Defined.

Lemma fourth_show_retires_word_witness :
  ~ In (mk_word_row 1 None "кот" "cat")
       (DatabaseUtils.eligible_words
          (snd (DatabaseUtils.update_times_shown three_shows_db 111 (Some 1%Z)))
          111 false).
Proof.
  intros H.
  refine (@fourth_show_retires_word three_shows_db 111 1 1 false _ eq_refl eq_refl
            _ H eq_refl).
  solve_consistent.
Defined.

(** ** Points and the rating *)

(** [update_points] changes the points of the player with that Telegram
    id and nothing else; taking away what was added restores the store. *)
Theorem update_points_round_trip d user_id points :
  DatabaseUtils.update_points
    (DatabaseUtils.update_points d user_id points true) user_id points false = d /\
  word (DatabaseUtils.update_points d user_id points true) = word d /\
  users_word (DatabaseUtils.update_points d user_id points true) = users_word d /\
  map u_telegram_user_id (users (DatabaseUtils.update_points d user_id points true))
    = map u_telegram_user_id (users d) /\
  (forall u, In u (users d) -> u_telegram_user_id u <> user_id ->
             In u (users (DatabaseUtils.update_points d user_id points true))).
Proof.
  split; [|split; [|split; [|split]]]; try reflexivity.
  - destruct d as [us ws uws s1 s2 s3].
    unfold DatabaseUtils.update_points, with_users. simpl. f_equal.
    rewrite map_map. rewrite <- (map_id us) at 2. apply map_ext. intros u.
    destruct u as [i t n pts]. cbn [u_telegram_user_id u_id u_name u_points].
    destruct (Z.eqb_spec t user_id) as [E|NE];
      cbn [u_telegram_user_id u_id u_name u_points].
    + rewrite (proj2 (Z.eqb_eq t user_id) E). f_equal. lia.
    + destruct (Z.eqb_spec t user_id); [contradiction | reflexivity].
  - simpl. rewrite map_map. apply map_ext. intros u.
    now destruct (Z.eqb (u_telegram_user_id u) user_id).
  - intros u Hin Hne. simpl. apply in_map_iff. exists u. split; [|assumption].
    destruct (Z.eqb_spec (u_telegram_user_id u) user_id); [contradiction|].
    reflexivity.
Qed.

Lemma insert_desc_perm u l : Permutation (DatabaseUtils.insert_desc u l) (u :: l).
Proof.
  induction l as [|x l IH]; simpl; [apply Permutation_refl|].
  destruct (Z.leb (u_points x) (u_points u)); [apply Permutation_refl|].
  etransitivity; [apply perm_skip, IH | apply perm_swap].
Qed.

Lemma insert_desc_hd u l a :
  HdRel points_desc a l -> (u_points u <= u_points a)%Z ->
  HdRel points_desc a (DatabaseUtils.insert_desc u l).
Proof.
  intros Hl Hu. destruct l as [|x l]; simpl; [now constructor|].
  destruct (Z.leb (u_points x) (u_points u)); constructor; [assumption|].
  now inversion Hl.
Qed.

Lemma insert_desc_sorted u l :
  Sorted points_desc l -> Sorted points_desc (DatabaseUtils.insert_desc u l).
Proof.
  induction l as [|x l IH]; simpl; intros Hs; [repeat constructor|].
  destruct (Z.leb_spec (u_points x) (u_points u)).
  - constructor; [assumption | now constructor].
  - inversion Hs; subst. constructor; [now apply IH|].
    apply insert_desc_hd; [assumption | unfold points_desc; lia].
Qed.

Lemma order_by_points_desc_perm l :
  Permutation (DatabaseUtils.order_by_points_desc l) l.
Proof.
  unfold DatabaseUtils.order_by_points_desc.
  induction l as [|u l IH]; simpl; [constructor|].
  etransitivity; [apply insert_desc_perm | now apply perm_skip].
Qed.

(** [get_player_ratings] lists every player of table [users] exactly
    once, with his Telegram id, name and points, and no entry has more
    points than the entry before it. *)
Theorem get_player_ratings_sorted d :
  Permutation (DatabaseUtils.order_by_points_desc (users d)) (users d) /\
  Sorted points_desc (DatabaseUtils.order_by_points_desc (users d)) /\
  DatabaseUtils.get_player_ratings d
  = map (fun u => DatabaseUtils.mk_rating (u_telegram_user_id u) (u_name u)
                                          (u_points u))
        (DatabaseUtils.order_by_points_desc (users d)) /\
  List.length (DatabaseUtils.get_player_ratings d) = List.length (users d).
Proof.
  split; [|split; [|split; [reflexivity|]]].
  - apply order_by_points_desc_perm.
  - unfold DatabaseUtils.order_by_points_desc.
    induction (users d) as [|u l IH]; simpl; [constructor|].
    now apply insert_desc_sorted.
  - unfold DatabaseUtils.get_player_ratings. rewrite length_map.
    apply Permutation_length, order_by_points_desc_perm.
Qed.

Lemma find_position_absent l : forall i tg,
  (forall r, In r l -> DatabaseUtils.telegram_user_id r <> tg) ->
  find_position (enumerate_from i l) tg = None.
Proof.
  induction l as [|u l IH]; intros i tg H; simpl; [reflexivity|].
  destruct (Z.eqb_spec (DatabaseUtils.telegram_user_id u) tg) as [E|_].
  - exfalso. apply (H u); [now left | assumption].
  - apply IH. intros r Hr. apply H. now right.
Qed.

(** A requester who is not in table [users] gets the fixed message that
    he is not in the rating. *)
Theorem display_player_rating_absent w tg :
  (forall u, In u (users (db w)) -> u_telegram_user_id u <> tg) ->
  display_player_rating tg w = (Returned not_found_message, w).
Proof.
  intros Habs. unfold display_player_rating, bind, db_query.
  rewrite find_position_absent; [reflexivity|].
  intros r Hr. unfold DatabaseUtils.get_player_ratings in Hr.
  apply in_map_iff in Hr as (u & <- & Hu). simpl. apply Habs.
  eapply Permutation_in; [|exact Hu].
  apply order_by_points_desc_perm.
Qed.

Lemma display_player_rating_absent_witness :
  display_player_rating 99 (world_of five_players)
  = (Returned not_found_message, world_of five_players).
Proof.
  apply (@display_player_rating_absent (world_of five_players) 99).
  intros u Hu. simpl in Hu.
  repeat (destruct Hu as [<-|Hu]; [simpl; lia|]). destruct Hu.
Defined.

(** [display_player_rating] never raises and changes nothing: the index
    into the rating list in the last branch is always in range. *)
Theorem display_player_rating_returns w tg :
  exists shown, display_player_rating tg w = (Returned shown, w).
Proof.
  unfold display_player_rating, bind, db_query.
  destruct (find_position _ tg) as [p|] eqn:E; [|unfold ret; eauto].
  destruct (find_position_found _ _ _ E) as (Hp & own & Hown & _).
  replace (p - 1 - 0) with (p - 1) in Hown by lia.
  destruct p as [|p]; [unfold ret; eauto|].
  unfold rating_entries.
  destruct (Nat.leb (S p) 3); [unfold ret; eauto|].
  destruct (Nat.eqb (S p) 4 || Nat.eqb (S p) 5)%bool; [unfold ret; eauto|].
  unfold bind, index. rewrite Hown. unfold ret. eauto.
Qed.

(** ** Saving and finding words *)

Lemma search_word_first d term owner r l :
  filter (DatabaseUtils.word_matches term owner) (word d) = r :: l ->
  DatabaseUtils.search_word d term owner = Some (w_id r).
Proof. unfold DatabaseUtils.search_word. now intros ->. Qed.

(** Rows appended to table [word] do not change what an earlier
    successful search finds. *)
Lemma search_word_stable d d' term owner i :
  (exists extra, word d' = word d ++ extra) ->
  DatabaseUtils.search_word d term owner = Some i ->
  DatabaseUtils.search_word d' term owner = Some i.
Proof.
  intros [extra E]. unfold DatabaseUtils.search_word. rewrite E, filter_app.
  destruct (filter (DatabaseUtils.word_matches term owner) (word d));
    [discriminate | trivial].
Qed.

Lemma word_matches_new term owner i translation :
  DatabaseUtils.word_matches term owner (mk_word_row i owner term translation)
  = true.
Proof.
  unfold DatabaseUtils.word_matches. simpl. rewrite String.eqb_refl.
  destruct owner; simpl; [apply Z.eqb_refl | reflexivity].
Qed.

Lemma save_then_search_first d term translation :
  DatabaseUtils.search_word d term None = None ->
  exists i,
    DatabaseUtils.search_word
      (snd (DatabaseUtils.save_word d term translation None)) term None = Some i.
Proof.
  intros Hnone. unfold DatabaseUtils.save_word, insert_word. cbn [snd].
  unfold DatabaseUtils.search_word in *. cbn [word]. rewrite filter_app.
  destruct (filter (DatabaseUtils.word_matches term None) (word d));
    [|discriminate].
  cbn [app filter]. rewrite word_matches_new. eauto.
Qed.

(** A word saved because the search did not find it is found afterwards
    under the id that [save_word] returned; searches for another term or
    another owner answer as before. *)
Theorem save_then_search d term translation owner :
  DatabaseUtils.search_word d term owner = None ->
  DatabaseUtils.search_word
    (snd (DatabaseUtils.save_word d term translation owner)) term owner
  = Some (fst (DatabaseUtils.save_word d term translation owner)) /\
  (forall term' owner',
      term' <> term \/ owner' <> owner ->
      DatabaseUtils.search_word
        (snd (DatabaseUtils.save_word d term translation owner)) term' owner'
      = DatabaseUtils.search_word d term' owner').
Proof.
  intros Hnone. unfold DatabaseUtils.save_word, insert_word. cbn [fst snd].
  unfold DatabaseUtils.search_word in *. cbn [word]. split.
  - rewrite filter_app.
    destruct (filter (DatabaseUtils.word_matches term owner) (word d));
      [|discriminate].
    cbn [app filter]. now rewrite word_matches_new.
  - intros term' owner' Hdiff. rewrite filter_app. cbn [filter].
    assert (Hno : DatabaseUtils.word_matches term' owner'
                    (mk_word_row (word_seq d) owner term translation) = false).
    { unfold DatabaseUtils.word_matches. cbn [w_russian_words w_user_id].
      destruct (String.eqb_spec term term') as [->|]; [|reflexivity].
      destruct Hdiff as [H|H]; [congruence|]. simpl.
      destruct owner' as [o'|], owner as [o|]; simpl; try reflexivity;
        try congruence.
      destruct (Z.eqb_spec o o'); [congruence | reflexivity]. }
    rewrite Hno, app_nil_r. reflexivity.
Qed.

Lemma save_then_search_witness :
  DatabaseUtils.search_word
    (snd (DatabaseUtils.save_word example_db "sun" "солнце" (Some 111%Z)))
    "sun" (Some 111%Z) = Some 5%Z.
Proof.
  apply (proj1 (@save_then_search example_db "sun" "солнце" (Some 111%Z) eq_refl)).
Defined.

(** ** The built-in list *)

Lemma set_fresh V (d : PyDict.dict V) k v :
  ~ In k (PyDict.keys d) -> PyDict.set d k v = d ++ [(k, v)].
Proof.
  induction d as [|[k0 v0] d IH]; simpl; intros H; [reflexivity|].
  destruct (String.eqb_spec k0 k) as [->|_]; [tauto|].
  f_equal. apply IH. tauto.
Qed.

Lemma update_fresh V (l : list (string * V)) : forall d,
  NoDup (PyDict.keys d ++ map fst l) -> PyDict.update d l = d ++ l.
Proof.
  unfold PyDict.update.
  induction l as [|[k v] l IH]; simpl; intros d H; [now rewrite app_nil_r|].
  rewrite set_fresh.
  - rewrite IH; [now rewrite <- app_assoc|].
    unfold PyDict.keys. rewrite map_app. simpl. rewrite <- app_assoc. exact H.
  - apply NoDup_remove_2 in H. intros Hin. apply H, in_or_app. now left.
Qed.

Lemma of_pairs_distinct V (l : list (string * V)) :
  NoDup (map fst l) -> PyDict.of_pairs l = l.
Proof. intros H. unfold PyDict.of_pairs. now rewrite update_fresh. Qed.

Lemma fallback_words_distinct : NoDup (map fst fallback_words).
Proof.
  repeat (constructor; [simpl; intuition discriminate|]). constructor.
Qed.

Lemma only_adds_words_search d d' term owner i :
  only_adds_words d d' ->
  DatabaseUtils.search_word d term owner = Some i ->
  DatabaseUtils.search_word d' term owner = Some i.
Proof. intros (_ & _ & _ & _ & H & _). now apply search_word_stable. Qed.

(** The loop of [get_fallback_words] never raises; it returns the
    selected pairs as a dictionary, and afterwards every selected term is
    in the store as a shared word. *)
Lemma fallback_rows_spec sel : forall d0 w,
  exists w',
    fallback_rows sel d0 w = (Returned (PyDict.update d0 sel), w') /\
    on_db only_adds_words w w' /\
    (forall k v, In (k, v) sel ->
                 DatabaseUtils.search_word (db w') k None <> None).
Proof.
  induction sel as [|[k v] sel IH]; intros d0 w.
  - exists w. split; [reflexivity|]. split; [reflexivity | intros k v []].
  - cbn [fallback_rows]. unfold bind at 1. unfold db_query at 1.
    destruct (DatabaseUtils.search_word (db w) k None) as [i|] eqn:Es.
    + unfold bind at 1. unfold ret at 1.
      destruct (IH (PyDict.set d0 k v) w) as (w' & E & Hadd & Hfound).
      exists w'. split; [exact E|]. split; [exact Hadd|].
      intros k' v' [Heq|Hin]; [|now apply (Hfound k' v')].
      inversion Heq; subst.
      erewrite only_adds_words_search; [discriminate | exact Hadd | exact Es].
    + set (w1 := snd (db_call (fun d => DatabaseUtils.save_word d k v None) w)).
      assert (H1 : (db_call (fun d => DatabaseUtils.save_word d k v None) ;;
                    ret tt) w = (Returned tt, w1)) by reflexivity.
      unfold bind at 1. rewrite H1.
      destruct (IH (PyDict.set d0 k v) w1) as (w' & E & Hadd & Hfound).
      exists w'. split; [exact E|]. split.
      * etransitivity; [|exact Hadd]. apply save_word_only_adds.
      * intros k' v' [Heq|Hin]; [|now apply (Hfound k' v')].
        inversion Heq; subst.
        destruct (@save_then_search_first (db w) k' v') as [i Hi]; [exact Es|].
        erewrite only_adds_words_search; [discriminate | exact Hadd | exact Hi].
Qed.

(** [get_fallback_words()] never raises: it returns four different
    pairs of the built-in list, each of which is then a shared word of the
    store. *)
Lemma get_fallback_words_spec w :
  exists d w',
    get_fallback_words 4 w = (Returned d, w') /\
    List.length d = 4 /\ NoDup (map fst d) /\ incl d fallback_words /\
    on_db only_adds_words w w' /\
    (forall k v, In (k, v) d ->
                 DatabaseUtils.search_word (db w') k None <> None).
Proof.
  unfold get_fallback_words. unfold bind at 1. cbn [logger].
  set (w1 := mk_world _ _ _ _ _ _).
  unfold sample. change (Nat.ltb (List.length fallback_words) 4) with false.
  cbv iota.
  destruct (sample_loop_perm 4 fallback_words w1)
    as (sel & rest & w2 & E & Hperm & Hlen & Hdb & _).
  unfold bind. rewrite E.
  destruct (fallback_rows_spec sel [] w2) as (w3 & E3 & Hadd & Hfound).
  assert (Hnd : NoDup (map fst sel)).
  { pose proof fallback_words_distinct as H.
    eapply Permutation_NoDup in H;
      [|apply Permutation_map, Permutation_sym, Hperm].
    rewrite map_app in H. now apply NoDup_app_remove_r in H. }
  rewrite E3. rewrite update_fresh by exact Hnd.
  exists sel, w3. split; [reflexivity|].
  split; [exact Hlen|]. split; [exact Hnd|]. split; [|split; [|exact Hfound]].
  - intros x Hx. eapply Permutation_in; [exact Hperm|].
    apply in_or_app. now left.
  - unfold on_db in *. rewrite Hdb in Hadd. exact Hadd.
Qed.

(** The [except] branch of [word_generator] always produces a round: a
    pair of the built-in list, the translations of three other pairs, and
    the id under which the term is then stored as a shared word. *)
Theorem fallback_round_returns w :
  exists term translation text_buttons id w',
    fallback_round w = (Returned (term, translation, text_buttons, Some id), w') /\
    In (term, translation) fallback_words /\
    List.length text_buttons = 3 /\
    incl text_buttons (map snd fallback_words) /\
    DatabaseUtils.search_word (db w') term None = Some id /\
    users (db w') = users (db w) /\ users_word (db w') = users_word (db w).
Proof.
  destruct (get_fallback_words_spec w)
    as (d & w' & E & Hlen & Hnd & Hincl & Hadd & Hfound).
  destruct d as [|[term tr] rest]; [discriminate|].
  destruct (DatabaseUtils.search_word (db w') term None) as [id|] eqn:Es;
    [|exfalso; apply (Hfound term tr); [now left | exact Es]].
  exists term, tr, (map snd rest), id, w'.
  split; [|split; [|split; [|split; [|split; [|split]]]]].
  - unfold fallback_round. unfold bind at 1. rewrite E.
    unfold bind at 1, index. cbn [PyDict.keys map nth_error ret PyDict.get].
    rewrite String.eqb_refl. unfold bind, db_query. cbn [fst].
    rewrite Es. reflexivity.
  - apply Hincl. now left.
  - rewrite length_map. simpl in Hlen. lia.
  - intros t Ht. apply in_map_iff in Ht as (x & <- & Hx).
    apply in_map, Hincl. now right.
  - exact Es.
  - apply Hadd.
  - apply Hadd.
Qed.

(** ** The general pool *)

Lemma len_update_bound V (l : list (string * V)) : forall d,
  PyDict.len (PyDict.update d l) <= PyDict.len d + List.length l.
Proof.
  unfold PyDict.update, PyDict.len.
  induction l as [|[k v] l IH]; simpl; intros d; [lia|].
  etransitivity; [apply IH|].
  assert (List.length (PyDict.set d k v) <= S (List.length d)); [|lia].
  clear. induction d as [|[k0 v0] d IH]; simpl; [lia|].
  destruct (String.eqb k0 k); simpl; lia.
Qed.

(** [get_random_words_for_user] always returns at most [quantity] words,
    and every one is a row of table [word] with the owner that [flag] asks
    for: the user himself when [flag] is set, nobody otherwise. *)
Theorem get_random_words_for_user_owner user_id quantity flag w :
  exists d w',
    get_random_words_for_user user_id quantity flag w = (Returned d, w') /\
    PyDict.len d <= quantity /\
    db w' = db w /\
    forall term translation id,
      In (term, (translation, id)) d ->
      In (mk_word_row id (if flag then Some user_id else None) term translation)
         (word (db w)).
Proof.
  unfold get_random_words_for_user. unfold bind at 1. unfold db_query at 1.
  destruct (sample_loop_spec quantity
              (DatabaseUtils.eligible_words (db w) user_id flag) w)
    as (sel & w' & E & Hincl & Hlen & Hdb & _).
  unfold bind. rewrite E. unfold ret. eexists _, w'. split; [reflexivity|].
  split; [|split; [exact Hdb|]].
  - unfold DatabaseUtils.words_dict_of, PyDict.of_pairs.
    etransitivity; [apply len_update_bound|]. simpl. rewrite length_map. lia.
  - intros term tr id Hin.
    apply words_dict_of_from_rows in Hin as (r & Hr & <- & <- & <-).
    apply Hincl in Hr. unfold DatabaseUtils.eligible_words in Hr.
    apply filter_In in Hr as [Hr Hc]. apply andb_prop in Hc as [_ Ho].
    destruct r as [i o t tr]. cbn [w_id w_user_id w_russian_words w_translation] in *.
    destruct flag.
    + destruct o as [x|]; simpl in Ho; [|discriminate].
      apply Z.eqb_eq in Ho. now subst.
    + destruct o; [discriminate | exact Hr].
Qed.

(** When the general pool has at least [quantity] words left for the
    user, with different terms, [read_words_bd] returns [quantity] of them
    at once: the entries are the term, translation and id of [quantity]
    different shared rows of table [word], each shown to the user fewer
    than 4 times; the file is not read and neither file nor store
    changes. *)
Theorem read_words_bd_enough depth user_id quantity w :
  quantity <= List.length (DatabaseUtils.eligible_words (db w) user_id false) ->
  NoDup (map w_russian_words
             (DatabaseUtils.eligible_words (db w) user_id false)) ->
  exists rows w',
    read_words_bd (S depth) user_id quantity w
    = (Returned (map (fun r => (w_russian_words r, (w_translation r, w_id r)))
                     rows), w') /\
    List.length rows = quantity /\
    NoDup (map w_russian_words rows) /\
    (forall r, In r rows ->
               In r (word (db w)) /\ w_user_id r = None /\
               (exposure (db w) user_id (w_id r) < 4)%Z) /\
    db w' = db w /\ csv w' = csv w.
Proof.
  intros Hq Hnd. cbn [read_words_bd]. unfold bind at 1. cbn [logger].
  set (w1 := mk_world _ _ _ _ _ _).
  unfold get_random_words_for_user. unfold bind at 1. unfold bind at 1.
  unfold db_query at 1. cbn [db w1].
  destruct (sample_loop_perm quantity
              (DatabaseUtils.eligible_words (db w) user_id false) w1)
    as (sel & rest & w2 & E & Hperm & Hlen & Hdb & Hcsv & _).
  unfold bind at 1. rewrite E. unfold ret at 1.
  assert (Hsel : NoDup (map w_russian_words sel)).
  { eapply Permutation_NoDup in Hnd;
      [|apply Permutation_map, Permutation_sym, Hperm].
    rewrite map_app in Hnd. now apply NoDup_app_remove_r in Hnd. }
  assert (Hd : DatabaseUtils.words_dict_of sel
               = map (fun r => (w_russian_words r, (w_translation r, w_id r))) sel).
  { unfold DatabaseUtils.words_dict_of. apply of_pairs_distinct.
    now rewrite map_map. }
  rewrite Hd.
  assert (Hlen' : PyDict.len
            (map (fun r => (w_russian_words r, (w_translation r, w_id r))) sel)
          = quantity)
    by (unfold PyDict.len; rewrite length_map, Hlen; lia).
  rewrite Hlen', Nat.ltb_irrefl. unfold ret.
  exists sel, w2. split; [reflexivity|].
  split; [lia|]. split; [exact Hsel|]. split; [|split; [exact Hdb | exact Hcsv]].
  intros r Hr.
  assert (Hel : In r (DatabaseUtils.eligible_words (db w) user_id false)).
  { eapply Permutation_in; [exact Hperm|]. apply in_or_app. now left. }
  split; [|split].
  - unfold DatabaseUtils.eligible_words in Hel. now apply filter_In in Hel.
  - unfold DatabaseUtils.eligible_words in Hel.
    apply filter_In in Hel as [_ Hcond]. apply andb_prop in Hcond as [_ Ho].
    now destruct (w_user_id r).
  - eapply eligible_not_mastered, Hel.
Qed.

Lemma read_words_bd_enough_witness :
  exists rows w',
    read_words_bd 1 111 4 example_world
    = (Returned (map (fun r => (w_russian_words r, (w_translation r, w_id r)))
                     rows), w') /\
    List.length rows = 4 /\
    (forall r, In r rows -> In r (word example_db) /\ w_user_id r = None).
Proof.
  destruct (@read_words_bd_enough 0 111 4 example_world)
    as (rows & w' & E & Hlen & _ & Hrows & _).
  - simpl. lia.
  - repeat (constructor; [simpl; intuition discriminate|]). constructor.
  - exists rows, w'. split; [exact E|]. split; [exact Hlen|].
    intros r Hr. destruct (Hrows r Hr) as (H1 & H2 & _). now split.
Defined.

(** When the word file has no data row and the general pool has no word
    left for the user, the two sources call each other until the recursion
    limit: for every limit and every [quantity >= 1] both raise
    [RecursionError], and store and file are as before. *)
Theorem top_up_stuck_when_depleted depth user_id quantity w :
  1 <= quantity ->
  depleted user_id w ->
  (exists w', read_words_csv depth user_id quantity w
              = (Raised RecursionError, w') /\
              db w' = db w /\ csv w' = csv w) /\
  (exists w', read_words_bd depth user_id quantity w
              = (Raised RecursionError, w') /\
              db w' = db w /\ csv w' = csv w).
Proof.
  intros Hq Hdep.
  destruct (@stuck depth user_id quantity w Hq Hdep) as [Hcsv Hbd].
  split; assumption.
Qed.

Lemma top_up_stuck_when_depleted_witness :
  exists w', read_words_bd 6 111 2 (mastered_world [1; 2; 3])
             = (Raised RecursionError, w').
Proof.
  destruct (@top_up_stuck_when_depleted 6 111 2 (mastered_world [1; 2; 3]))
    as [_ (w' & E & _)].
  - lia.
  - split; reflexivity.
  - exists w'. exact E.
Defined.

(** With nothing left in any source, [word_generator] raises
    [RecursionError] to its caller for every recursion limit. *)
Theorem word_generator_stuck_when_depleted depth msg w :
  depleted (from_user_id msg) w ->
  DatabaseUtils.eligible_words (db w) (from_user_id msg) true = [] ->
  fst (word_generator depth msg w) = Raised RecursionError.
Proof.
  intros Hdep Hown.
  destruct (chosen_source_stuck depth msg Hdep Hown) as (w' & E).
  now rewrite (word_generator_source_raises _ _ _ E).
Qed.

Lemma word_generator_stuck_when_depleted_witness :
  fst (word_generator 7 (example_message "cat") (mastered_world [0; 5]))
  = Raised RecursionError.
Proof.
  apply (@word_generator_stuck_when_depleted 7 (example_message "cat")
           (mastered_world [0; 5])).
  - split; reflexivity.
  - reflexivity.
Defined.

(** ** What the player is offered *)

Section Offer.
Context {B : BtnText}.

(** When [start_game] returns, [word_generator] has returned a round;
    the last message sent is the question for the term of that round, with
    a keyboard made of the distractors of that round and its correct
    translation in some order, followed by the three command buttons; and
    the handler registered last for the chat is [check_answer] with the
    word id and the correct translation of that round. *)
Theorem start_game_offers_answer depth msg w w' :
  start_game depth msg w = (Returned tt, w') ->
  exists term correct_translation text_buttons id_word w1 labels,
    word_generator depth msg w
    = (Returned (term, correct_translation, text_buttons, id_word), w1) /\
    outbox w' = outbox w1 ++
                [mk_sent (chat_id msg)
                         ("Как перевести слово '<b>" ++ term ++ "</b>'?")%string
                         (Some (labels ++ [BTN_ADD_WORD; BTN_DEL_WORD;
                                           BTN_VIEW_RATING]))
                         (Some "HTML")] /\
    Permutation labels (text_buttons ++ [correct_translation]) /\
    In correct_translation labels /\
    next_step w' = next_step w1 ++
                   [(chat_id msg, h_check_answer id_word correct_translation)] /\
    db w' = db w1.
Proof.
  unfold start_game. intros H.
  apply bind_inv in H as ([[[term correct] ds] id] & w1 & Hgen & H).
  unfold translation_buttons in H.
  destruct (shuffle_perm (ds ++ [correct]) w1)
    as (labels & w2 & Es & Hperm & Hdb & _ & _ & Hout & Hsteps).
  unfold bind at 1 in H. unfold bind at 1 in H. rewrite Es in H.
  unfold ret at 1 in H. unfold bind in H. cbn in H. inversion H; subst w'.
  exists term, correct, ds, id, w1, labels.
  cbn [outbox next_step db]. rewrite Hout, Hsteps, Hdb.
  split; [exact Hgen|]. split; [reflexivity|]. split; [exact Hperm|].
  split; [|split; reflexivity].
  eapply Permutation_in; [apply Permutation_sym, Hperm|].
  apply in_or_app. right. now left.
Qed.

End Offer.

Lemma start_game_offers_answer_witness :
  exists w1 labels,
    word_generator 5 (example_message "hi") example_world
    = (Returned ("кот", "cat", ["house"; "table"; "window"], Some 1%Z), w1) /\
    outbox (snd (start_game (B := example_buttons) 5 (example_message "hi")
                   example_world))
    = outbox w1 ++
      [mk_sent 7 "Как перевести слово '<b>кот</b>'?"
               (Some (labels ++ ["add word"; "delete word"; "rating"]))
               (Some "HTML")] /\
    In "cat" labels.
Proof.
  destruct (@start_game_offers_answer example_buttons 5 (example_message "hi")
              example_world
              (snd (start_game (B := example_buttons) 5 (example_message "hi")
                      example_world)))
    as (term & correct & ds & id & w1 & labels & Hgen & Hout & _ & Hin & _).
  - vm_compute. reflexivity.
  - assert (Hrun : fst (word_generator 5 (example_message "hi") example_world)
                   = Returned ("кот", "cat", ["house"; "table"; "window"],
                               Some 1%Z)) by (vm_compute; reflexivity).
    rewrite Hgen in Hrun. cbn [fst] in Hrun. inversion Hrun; subst.
    exists w1, labels. split; [exact Hgen|]. split; [exact Hout | exact Hin].
Defined.

(** ** Adding and deleting personal words *)


Section AddDelete.
Context {B : BtnText} {U : StrMethods}.


(** Deleting a term that the user has answers [True]; afterwards the
    user no longer has the term, rows of other terms or owners are kept,
    and the handler sends the message that the word was deleted. *)
Theorem delete_word_existing depth msg user_id w r :
  strip (lower (text msg)) <> lower BTN_Back ->
  In r (word (db w)) ->
  w_russian_words r = strip (lower (text msg)) ->
  w_user_id r = Some user_id ->
  exists w',
    _delete_user_word depth msg user_id w = (Returned tt, w') /\
    fst (DatabaseUtils.delete_word (db w) (strip (lower (text msg))) user_id)
      = true /\
    DatabaseUtils.search_word (db w') (strip (lower (text msg)))
                              (Some user_id) = None /\
    (forall r', In r' (word (db w)) ->
                (w_russian_words r' <> strip (lower (text msg)) \/
                 w_user_id r' <> Some user_id) ->
                In r' (word (db w'))) /\
    (forall r', In r' (word (db w')) -> In r' (word (db w))) /\
    users (db w') = users (db w) /\
    outbox w' = outbox w ++
                [mk_sent (chat_id msg)
                   ("Слово <b>" ++ capitalize (strip (lower (text msg))) ++
                    "</b> успешно удалено из базы данных." ++
                    String "010" "Для продолжения нажмите кнопку.")%string
                   (Some [BTN_STAR_GEME]) (Some "HTML")].
Proof.
  intros Hback Hin Ht Ho.
  set (term := strip (lower (text msg))) in *.
  assert (Hm : DatabaseUtils.word_matches term (Some user_id) r = true).
  { unfold DatabaseUtils.word_matches. rewrite Ht, Ho, String.eqb_refl.
    simpl. apply Z.eqb_refl. }
  assert (Hdel : fst (DatabaseUtils.delete_word (db w) term user_id) = true).
  { unfold DatabaseUtils.delete_word, delete_from_word. cbn [fst].
    destruct (filter (DatabaseUtils.word_matches term (Some user_id)) (word (db w)))
      as [|x l] eqn:E; [|reflexivity].
    assert (Hf : In r (filter (DatabaseUtils.word_matches term (Some user_id))
                              (word (db w)))) by (apply filter_In; now split).
    rewrite E in Hf. destruct Hf. }
  exists (mk_world (snd (DatabaseUtils.delete_word (db w) term user_id))
                   (csv w) (tape w) (log w)
                   (outbox w ++ [mk_sent (chat_id msg) (deleted_message term)
                                         (Some start_button) html])
                   (next_step w)).
  split; [|split; [exact Hdel|split; [|split; [|split; [|split]]]]].
  - unfold _delete_user_word. fold term.
    destruct (String.eqb_spec term (lower BTN_Back)) as [|_]; [contradiction|].
    unfold bind, db_call.
    destruct (DatabaseUtils.delete_word (db w) term user_id) as [b d'] eqn:E.
    cbn [fst] in Hdel. subst b. reflexivity.
  - cbn [db]. unfold DatabaseUtils.search_word, DatabaseUtils.delete_word,
      delete_from_word. cbn [snd word].
    rewrite filter_none; [reflexivity|].
    intros x Hx. apply filter_In in Hx as [_ Hx].
    now apply negb_true_iff in Hx.
  - intros r' Hr' Hdiff. cbn [db]. unfold DatabaseUtils.delete_word,
      delete_from_word. cbn [snd word]. apply filter_In. split; [assumption|].
    apply negb_true_iff. unfold DatabaseUtils.word_matches.
    destruct (String.eqb_spec (w_russian_words r') term) as [E|]; [|reflexivity].
    destruct Hdiff as [|Hd]; [contradiction|].
    destruct (w_user_id r') as [o|]; simpl; [|reflexivity].
    destruct (Z.eqb_spec o user_id); [congruence | reflexivity].
  - intros r' Hr'. cbn [db] in Hr'. unfold DatabaseUtils.delete_word,
      delete_from_word in Hr'. cbn [snd word] in Hr'.
    now apply filter_In in Hr'.
  - reflexivity.
  - reflexivity.
Qed.

End AddDelete.


Lemma delete_word_existing_witness :
  exists w',
    _delete_user_word (B := example_buttons) (U := ascii_methods) 5
                      (example_message " Sun ") 111 own_word_world
    = (Returned tt, w') /\
    DatabaseUtils.search_word (db w') "sun" (Some 111%Z) = None /\
    outbox w' =
      [mk_sent 7 ("Слово <b>Sun</b> успешно удалено из базы данных." ++
                  String "010" "Для продолжения нажмите кнопку.")%string
               (Some ["start"]) (Some "HTML")].
Proof.
  destruct (@delete_word_existing example_buttons ascii_methods 5
              (example_message " Sun ") 111 own_word_world
              (mk_word_row 5 (Some 111%Z) "sun" "солнце"))
    as (w' & E & _ & Hs & _ & _ & _ & Hout).
  - vm_compute. discriminate.
  - simpl. tauto.
  - reflexivity.
  - reflexivity.
  - exists w'. split; [exact E|]. split; [exact Hs | exact Hout].
Defined.

(** ** Buttons *)

Section ButtonFacts.
Context {B : BtnText}.

(** [translation_buttons] never raises: the keyboard is the given labels
    in some order followed by the buttons for adding a word, deleting a
    word and the rating; only random numbers are consumed.
    [universal_buttons] returns the given labels in some order. *)
Theorem buttons_are_permutations text_buttons w :
  (exists labels w',
      translation_buttons text_buttons w
      = (Returned (labels ++ [BTN_ADD_WORD; BTN_DEL_WORD; BTN_VIEW_RATING]), w') /\
      Permutation labels text_buttons /\
      db w' = db w /\ outbox w' = outbox w /\ next_step w' = next_step w) /\
  (exists labels w',
      universal_buttons text_buttons w = (Returned labels, w') /\
      Permutation labels text_buttons /\
      db w' = db w /\ outbox w' = outbox w /\ next_step w' = next_step w).
Proof.
  destruct (shuffle_perm text_buttons w)
    as (labels & w' & E & Hperm & Hdb & _ & _ & Hout & Hsteps).
  split; exists labels, w'.
  - unfold translation_buttons, bind. rewrite E. unfold ret. auto.
  - unfold universal_buttons. auto.
Qed.

End ButtonFacts.

(** ** New players *)

(** A player saved under a Telegram id that was not registered is found
    by [search_user] under the next id of the table, with the given name
    and 0 points; the other players are found as before. *)
Theorem save_user_then_search d name tg :
  DatabaseUtils.search_user d tg = None ->
  DatabaseUtils.search_user (save_user d name tg) tg
    = Some (users_seq d, name, 0%Z) /\
  (forall other, other <> tg ->
     DatabaseUtils.search_user (save_user d name tg) other
     = DatabaseUtils.search_user d other).
Proof.
  intros Hnone. unfold DatabaseUtils.search_user, save_user in *. cbn [users].
  split.
  - rewrite filter_app.
    destruct (filter (fun u => Z.eqb (u_telegram_user_id u) tg) (users d));
      [|discriminate].
    cbn [filter app u_telegram_user_id]. now rewrite Z.eqb_refl.
  - intros other Hne. rewrite filter_app. cbn [filter u_telegram_user_id].
    destruct (Z.eqb_spec tg other); [congruence|]. now rewrite app_nil_r.
Qed.

Lemma save_user_then_search_witness :
  DatabaseUtils.search_user (save_user example_db "bob" 222) 222
  = Some (2%Z, "bob", 0%Z).
Proof.
  apply (proj1 (@save_user_then_search example_db "bob" 222 eq_refl)).
Defined.

(** ** A correct answer *)

Lemma select_user_id_update_points d user_id points add tg :
  DatabaseUtils.select_user_id (DatabaseUtils.update_points d user_id points add) tg
  = DatabaseUtils.select_user_id d tg.
Proof.
  unfold DatabaseUtils.select_user_id, DatabaseUtils.update_points. cbn [users with_users].
  induction (users d) as [|u l IH]; [reflexivity|]. cbn [map filter].
  destruct (Z.eqb (u_telegram_user_id u) user_id);
    cbn [u_telegram_user_id];
    destruct (Z.eqb (u_telegram_user_id u) tg); cbn [map u_id]; now rewrite IH.
Qed.

Lemma exposure_ext d d' tg wid :
  users d' = users d -> users_word d' = users_word d ->
  exposure d' tg wid = exposure d tg wid.
Proof.
  intros Hu Huw.
  unfold exposure, DatabaseUtils.rows_of_user, DatabaseUtils.user_id_of,
    DatabaseUtils.select_user_id. now rewrite Hu, Huw.
Qed.

Lemma exposure_update_points d user_id points add tg wid :
  exposure (DatabaseUtils.update_points d user_id points add) tg wid
  = exposure d tg wid.
Proof.
  unfold exposure, DatabaseUtils.rows_of_user, DatabaseUtils.user_id_of.
  now rewrite select_user_id_update_points.
Qed.

Lemma update_points_consistent d user_id points add :
  consistent d -> consistent (DatabaseUtils.update_points d user_id points add).
Proof.
  intros [H1 H2 H3 H4 H5 H6 H7 H8].
  assert (Hid : map u_id (users (DatabaseUtils.update_points d user_id points add))
                = map u_id (users d)).
  { simpl. rewrite map_map. apply map_ext. intros u.
    now destruct (Z.eqb (u_telegram_user_id u) user_id). }
  assert (Htg : map u_telegram_user_id
                    (users (DatabaseUtils.update_points d user_id points add))
                = map u_telegram_user_id (users d)).
  { simpl. rewrite map_map. apply map_ext. intros u.
    now destruct (Z.eqb (u_telegram_user_id u) user_id). }
  split; auto.
  - now rewrite Hid.
  - now rewrite Htg.
  - simpl. rewrite Forall_map. eapply Forall_impl; [|exact H3].
    intros u Hu. now destruct (Z.eqb (u_telegram_user_id u) user_id).
Qed.

Section CorrectAnswer.
Context {B : BtnText}.

(** When a registered player gives the correct translation, the
    exposure of the word to him is one higher after [check_answer] than
    before, and his points are one higher, whether or not the next round
    can be presented. *)
Theorem check_answer_correct depth msg wid w uid :
  consistent (db w) ->
  DatabaseUtils.user_id_of (db w) (from_user_id msg) = Some uid ->
  (exposure (db (snd (check_answer depth msg (Some wid) (text msg) w)))
            (from_user_id msg) wid
   = exposure (db w) (from_user_id msg) wid + 1)%Z /\
  users (db (snd (check_answer depth msg (Some wid) (text msg) w)))
  = map (fun u =>
           if Z.eqb (u_telegram_user_id u) (from_user_id msg)
           then mk_users_row (u_id u) (u_telegram_user_id u) (u_name u)
                             (u_points u + 1)
           else u)
        (users (db w)).
Proof.
  intros Hc Hu.
  set (tg := from_user_id msg) in *.
  set (d1 := DatabaseUtils.update_points (db w) tg 1 true).
  assert (Hc1 : consistent d1) by now apply update_points_consistent.
  assert (Hu1 : DatabaseUtils.user_id_of d1 tg = Some uid).
  { unfold DatabaseUtils.user_id_of, d1.
    now rewrite select_user_id_update_points. }
  destruct (@update_times_shown_returns d1 tg wid uid Hu1) as (d2 & E2).
  assert (Hd2 : d2 = snd (DatabaseUtils.update_times_shown d1 tg (Some wid)))
    by now rewrite E2.
  set (w3 := mk_world d2 (csv w) (tape w) (log w)
                      (outbox w ++ [mk_sent (chat_id msg) correct_message None None])
                      (next_step w)).
  assert (Hrun : check_answer depth msg (Some wid) (text msg) w
                 = start_game depth msg w3).
  { unfold check_answer. rewrite String.eqb_refl.
    erewrite (@bind_returned _ _ (send_message _ _ _ _)) by reflexivity.
    erewrite (@bind_returned _ _ (db_call _)) by reflexivity.
    unfold bind at 1. cbn [db csv tape log outbox next_step].
    fold tg. fold d1. rewrite E2. reflexivity. }
  rewrite Hrun.
  destruct (keeps_start_game B depth msg w3) as (Hus & Huw & _).
  cbn [db w3] in Hus, Huw. split.
  - rewrite (exposure_ext _ _ tg wid Hus Huw), Hd2.
    rewrite (@exposure_after_update d1 tg wid uid wid Hc1 Hu1), Z.eqb_refl.
    unfold d1. now rewrite exposure_update_points.
  - rewrite Hus, Hd2. now rewrite update_times_shown_keeps_users.
Qed.

(** When the sender of the correct translation is not in table [users],
    [check_answer] congratulates him and then fails with [IndexError]: no
    points and no exposure are recorded and no next word is sent. *)
Theorem check_answer_unregistered depth msg id_word w :
  DatabaseUtils.user_id_of (db w) (from_user_id msg) = None ->
  check_answer depth msg id_word (text msg) w =
  (Raised IndexError,
   mk_world (db w) (csv w) (tape w) (log w)
            (outbox w ++ [mk_sent (chat_id msg) correct_message None None])
            (next_step w)).
Proof.
  intros Hu. unfold check_answer. rewrite String.eqb_refl.
  set (tg := from_user_id msg) in *.
  assert (Hd : DatabaseUtils.update_points (db w) tg 1 true = db w).
  { unfold DatabaseUtils.update_points, with_users.
    assert (Hmap : forall l,
               filter (fun u => Z.eqb (u_telegram_user_id u) tg) l = [] ->
               map (fun u => if Z.eqb (u_telegram_user_id u) tg
                             then mk_users_row (u_id u) (u_telegram_user_id u)
                                    (u_name u) (u_points u + 1)
                             else u) l = l).
    { induction l as [|u l IH]; simpl; [reflexivity|].
      destruct (Z.eqb (u_telegram_user_id u) tg); [discriminate|].
      intros H. now rewrite IH. }
    rewrite Hmap; [now destruct (db w)|].
    unfold DatabaseUtils.user_id_of, DatabaseUtils.select_user_id in Hu.
    destruct (filter _ (users (db w))); [reflexivity | discriminate]. }
  erewrite (@bind_returned _ _ (send_message _ _ _ _)) by reflexivity.
  erewrite (@bind_returned _ _ (db_call _)) by reflexivity.
  unfold bind. cbn [db csv tape log outbox next_step]. rewrite Hd.
  rewrite (@update_times_shown_raises (db w) tg id_word Hu). reflexivity.
Qed.

End CorrectAnswer.

Lemma check_answer_correct_witness :
  exposure (db (snd (check_answer (B := example_buttons) 5
                       (example_message "cat") (Some 1%Z) "cat" example_world)))
           111 1
  = 1%Z.
Proof.
  apply (proj1 (@check_answer_correct example_buttons 5 (example_message "cat")
                  1 example_world 1 example_db_consistent eq_refl)).
Defined.

Lemma check_answer_unregistered_witness :
  fst (check_answer (B := example_buttons) 5 (mk_message 7 999 "cat")
         (Some 1%Z) "cat" example_world)
  = Raised IndexError.
Proof.
  pose proof (@check_answer_unregistered example_buttons 5
                (mk_message 7 999 "cat") (Some 1%Z) example_world eq_refl) as H.
  cbn [text] in H. now rewrite H.
Defined.

(** ** The word file *)

(** When the word file cannot be opened, [read_words_csv] logs the error
    and answers with whatever [read_words_bd] returns for the full
    quantity. *)
Theorem read_words_csv_without_file depth user_id quantity w result w' :
  csv w = None ->
  read_words_bd depth user_id quantity
    (mk_world (db w) (csv w) (tape w)
              (log w ++ [Debug debug_csv; Error error_csv FileNotFoundError])
              (outbox w) (next_step w))
  = (Returned result, w') ->
  read_words_csv (S depth) user_id quantity w = (Returned result, w').
Proof.
  intros Hfile Hbd.
  pose proof (proj2 (yields_wf_sources depth) _ _ _ _ _ Hbd) as Hwf.
  cbn [read_words_csv]. unfold bind at 1. cbn [logger].
  unfold bind at 1. unfold guarded at 1, read_csv_file. cbn [csv].
  rewrite Hfile. unfold bind at 1. cbn [logger db csv tape log outbox next_step].
  rewrite <- app_assoc. cbn [app]. rewrite Hfile in Hbd.
  unfold bind. rewrite Hbd. unfold ret.
  now rewrite (update_fresh result [] Hwf).
Qed.

Lemma read_words_csv_without_file_witness :
  exists result w',
    read_words_csv 2 111 4 (world_of example_db) = (Returned result, w') /\
    PyDict.len result = 4.
Proof.
  eexists _, _. split.
  - apply (@read_words_csv_without_file 1 111 4 (world_of example_db)).
    + reflexivity.
    + vm_compute. reflexivity.
  - reflexivity.
Defined.

(** The loop over the selected rows, when every row has its two cells
    and the terms are new to the dictionary and different from each other:
    it ends normally with one entry per row, in order; the file is not
    touched and the store only gets new words. *)
Lemma csv_rows_well_formed sel : forall d0 w,
  Forall (fun row : list string => 2 <= List.length row) sel ->
  NoDup (PyDict.keys d0 ++ map (hd EmptyString) sel) ->
  exists d w',
    csv_rows sel d0 w = (Returned (Done d), w') /\
    PyDict.keys d = PyDict.keys d0 ++ map (hd EmptyString) sel /\
    csv w' = csv w /\
    on_db only_adds_words w w'.
Proof.
  induction sel as [|row sel IH]; intros d0 w Hrows Hnd.
  - exists d0, w. split; [reflexivity|].
    split; [simpl; now rewrite app_nil_r|]. split; reflexivity.
  - inversion Hrows as [|? ? Hrow Hrest]; subst.
    destruct row as [|c0 [|c1 row]]; simpl in Hrow; try lia.
    cbn [csv_rows]. unfold guarded at 1, index. cbn [nth_error ret].
    unfold guarded at 1.
    set (c := bind _ _).
    assert (Hc : exists id w1, c w = (Returned (c1, id), w1) /\
                               csv w1 = csv w /\ on_db only_adds_words w w1).
    { unfold c, bind, db_query, index. cbn [nth_error ret].
      destruct (DatabaseUtils.search_word (db w) c0 None) as [i|].
      - exists i, w. split; [reflexivity|]. split; reflexivity.
      - eexists _, _. cbn [db_call DatabaseUtils.save_word insert_word].
        split; [reflexivity|]. split; [reflexivity|].
        apply save_word_only_adds. }
    destruct Hc as (id & w1 & Ec & Hcsv1 & Hadd1). rewrite Ec.
    cbn [map hd] in Hnd.
    assert (Hfresh : ~ In c0 (PyDict.keys d0)).
    { apply NoDup_remove_2 in Hnd. intros Hin. apply Hnd, in_or_app. now left. }
    destruct (IH (PyDict.set d0 c0 (c1, id)) w1 Hrest) as (d & w' & E & Hk & Hcsv & Hadd).
    { rewrite PyDictFacts.keys_set_absent by exact Hfresh.
      rewrite <- app_assoc. exact Hnd. }
    exists d, w'. split; [exact E|]. split; [|split].
    + rewrite Hk, PyDictFacts.keys_set_absent by exact Hfresh.
      now rewrite <- app_assoc.
    + congruence.
    + etransitivity; eassumption.
Qed.

(** When the word file has at least [quantity] data rows, each with two
    cells and all with different terms, [read_words_csv] returns exactly
    [quantity] words, one per selected row, without calling the general
    pool, and rewrites the file without the selected rows: a row served
    once is not in the file any more. *)
Theorem read_words_csv_consumes depth user_id quantity w words :
  csv w = Some words ->
  quantity <= List.length (tl words) ->
  Forall (fun row : list string => 2 <= List.length row) (tl words) ->
  NoDup (map (hd EmptyString) (tl words)) ->
  exists d selected_words w',
    read_words_csv (S depth) user_id quantity w = (Returned d, w') /\
    PyDict.keys d = map (hd EmptyString) selected_words /\
    PyDict.len d = quantity /\
    incl selected_words (tl words) /\
    csv w' = Some (remaining_words words selected_words) /\
    (forall row, In row selected_words ->
                 ~ In row (remaining_words words selected_words)) /\
    on_db only_adds_words w w'.
Proof.
  intros Hfile Hq Hrows Hnd.
  cbn [read_words_csv]. unfold bind at 1. cbn [logger].
  set (w1 := mk_world _ _ _ _ _ _).
  unfold bind at 1. unfold guarded at 1, read_csv_file. cbn [csv w1].
  rewrite Hfile. unfold guarded at 1.
  assert (Hk : (if Nat.ltb (List.length (tl words)) quantity
                then List.length (tl words) else quantity) = quantity).
  { destruct (Nat.ltb_spec (List.length (tl words)) quantity); lia. }
  rewrite Hk. unfold sample.
  destruct (Nat.ltb_spec (List.length (tl words)) quantity) as [|_]; [lia|].
  destruct (sample_loop_perm quantity (tl words) w1)
    as (sel & rest & w2 & Es & Hperm & Hlen & Hdb2 & Hcsv2 & _).
  rewrite Es.
  assert (Hin : incl sel (tl words)).
  { intros x Hx. eapply Permutation_in; [exact Hperm|].
    apply in_or_app. now left. }
  assert (Hsel_rows : Forall (fun row : list string => 2 <= List.length row) sel).
  { rewrite Forall_forall in *. auto. }
  assert (Hsel_nd : NoDup (map (hd EmptyString) sel)).
  { eapply Permutation_NoDup in Hnd;
      [|apply Permutation_map, Permutation_sym, Hperm].
    rewrite map_app in Hnd. now apply NoDup_app_remove_r in Hnd. }
  destruct (csv_rows_well_formed [] w2 Hsel_rows Hsel_nd)
    as (d & w3 & Er & Hkeys & Hcsv3 & Hadd3).
  unfold bind at 1. rewrite Er.
  assert (Hd : PyDict.len d = quantity).
  { unfold PyDict.len. rewrite <- (length_map fst). fold (PyDict.keys d).
    rewrite Hkeys. cbn [PyDict.keys map app]. rewrite length_map. lia. }
  unfold guarded at 1. rewrite Hd, Nat.ltb_irrefl. unfold ret at 1.
  unfold bind at 1. cbn [put_csv]. unfold ret at 1. unfold ret.
  eexists d, sel, _. split; [reflexivity|].
  split; [exact Hkeys|]. split; [exact Hd|]. split; [exact Hin|].
  split; [reflexivity|]. split.
  - intros row Hrow Hrem. unfold remaining_words in Hrem.
    apply filter_In in Hrem as [_ Hrem]. unfold row_in in Hrem.
    destruct (in_dec (list_eq_dec string_dec) row sel); [discriminate | tauto].
  - unfold on_db in *. cbn [db]. rewrite Hdb2 in Hadd3. exact Hadd3.
Qed.

Lemma read_words_csv_consumes_witness :
  exists d selected_words w',
    read_words_csv 1 111 4 full_file_world = (Returned d, w') /\
    PyDict.len d = 4 /\
    csv w' = Some (remaining_words
                     [["russian"; "english"]; ["солнце"; "sun"]; ["луна"; "moon"];
                      ["рыба"; "fish"]; ["птица"; "bird"]; ["звезда"; "star"]]
                     selected_words).
Proof.
  destruct (@read_words_csv_consumes 0 111 4 full_file_world
              [["russian"; "english"]; ["солнце"; "sun"]; ["луна"; "moon"];
               ["рыба"; "fish"]; ["птица"; "bird"]; ["звезда"; "star"]])
    as (d & sel & w' & E & _ & Hlen & _ & Hcsv & _).
  - reflexivity.
  - simpl. lia.
  - repeat (constructor; [simpl; lia|]). constructor.
  - repeat (constructor; [simpl; intuition discriminate|]). constructor.
  - exists d, sel, w'. split; [exact E|]. split; [exact Hlen | exact Hcsv].
Defined.

(** ** The threshold and the selections *)









